(** * Verification of the dashboard diagnostics core

    Shallow embedding of three Python modules of the repository:

    - [rrd/store.py]            the resilient data access layer ([Module Store]),
    - [rrd/corelib/__init__.py] the outbound call tracker ([Module Corelib]),
    - [logs/analyze_logs.py]    the log correlation engine ([Module Analyzer]).

    Stateful code is written in a small state-and-exception monad.  Everything
    the Python code obtains from outside (the MySQL driver, the HTTP library,
    the clock, the request context) is an oracle that is a function of the
    trace of what happened before, so that an outcome may depend on the whole
    history (a statement may fail the first time and succeed the second). *)

From Stdlib Require Import ZArith QArith List String Ascii Bool Lia Permutation
  Sorted.
From stdpp Require Import base gmap.
Import ListNotations.
Local Open Scope string_scope.
Local Open Scope Z_scope.

(** ** Python exceptions

    Only the classes the three modules raise, catch or are tested with.  All
    of them derive from [Exception]; [PlainException] is [Exception] itself
    ([raise Exception("...")]). *)

Inductive exn_class :=
| AttributeError | ValueError | TypeError | IndexError | PlainException
| OperationalError | IntegrityError | InterfaceError
| Timeout | ConnectionError.

Record exn := Exn { exn_cls : exn_class; exn_msg : string }.

(** [None.attr]: attribute access on a missing object. *)
Definition none_attr (attr : string) : exn :=
  Exn AttributeError ("'NoneType' object has no attribute '" ++ attr ++ "'").

(** ** The state-and-exception monad *)

Inductive result (A : Type) :=
| Return (a : A)
| Raise (e : exn).
Arguments Return {A} a.
Arguments Raise {A} e.

Definition M (S A : Type) : Type := S -> result A * S.

Definition ret {S A} (a : A) : M S A := fun s => (Return a, s).
Definition raise {S A} (e : exn) : M S A := fun s => (Raise e, s).
Definition bind {S A B} (m : M S A) (k : A -> M S B) : M S B :=
  fun s => match m s with
           | (Return a, s') => k a s'
           | (Raise e, s') => (Raise e, s')
           end.

Notation "x <- m ;; k" := (bind m (fun x => k))
  (at level 90, m at next level, right associativity).
Notation "m ;;; k" := (bind m (fun _ => k))
  (at level 90, right associativity).

(** [try: body except <classes>: handler]: [handlers e] picks the first
    [except] clause that matches [e]; an exception raised inside a handler is
    not offered to the sibling clauses. *)
Definition try_except {S A} (body : M S A) (handlers : exn -> option (M S A))
  : M S A :=
  fun s => match body s with
           | (Return a, s') => (Return a, s')
           | (Raise e, s') =>
               match handlers e with
               | Some h => h s'
               | None => (Raise e, s')
               end
           end.

(** [try: body finally: fin]: [fin] always runs; when it returns, the pending
    outcome of [body] (value or exception) goes on, when it raises, its
    exception replaces that outcome. *)
Definition try_finally {S A} (body : M S A) (fin : M S unit) : M S A :=
  fun s => let '(r, s') := body s in
           match fin s' with
           | (Return _, s'') => (r, s'')
           | (Raise e, s'') => (Raise e, s'')
           end.

Definition when_ {S} (b : bool) (m : M S unit) : M S unit :=
  if b then m else ret tt.

(** [a > b] on clock readings. *)
Definition Qgtb (a b : Q) : bool := negb (Qle_bool a b).

(** * rrd/store.py *)

Module Store.

Record db_cfg := DbCfg {
  DB_HOST : string; DB_PORT : Z; DB_USER : string;
  DB_PASS : string; DB_NAME : string }.

(** Connections and cursors are driver objects, known by a handle. *)
Definition conn_id := nat.
Definition cursor_id := nat.
Definition row := list string.

(** Everything observable: the calls made to the driver and the records
    handed to the logger, most recent first. *)
Inductive event :=
| EvConnect (cfg : db_cfg)
| EvCursor (c : conn_id)
| EvConnClose (c : conn_id)
| EvCommit (c : conn_id)
| EvRollback (c : conn_id)
| EvExecute (k : cursor_id) (a : list string)
| EvFetchall (k : cursor_id)
| EvCursorClose (k : cursor_id)
| LogCritical (msg : string)
| DB_SLOW (thread sql : string) (elapsed : Q)
| DB_RECONNECT (thread sql : string) (elapsed : Q) (error : string)
| DB_ERROR (thread sql : string) (elapsed : Q) (error : string).

Definition trace := list event.

(** The MySQL driver, the clock and the thread identity.  Each answer is a
    function of the trace so far. *)
Record Driver := {
  drv_connect : trace -> db_cfg -> result conn_id;
  drv_cursor : trace -> conn_id -> result (option cursor_id);
  drv_conn_close : trace -> conn_id -> result unit;
  drv_commit : trace -> conn_id -> result unit;
  drv_rollback : trace -> conn_id -> result unit;
  drv_execute : trace -> cursor_id -> list string -> result unit;
  drv_fetchall : trace -> cursor_id -> result (list row);
  drv_cursor_close : trace -> cursor_id -> result unit;
  drv_lastrowid : trace -> cursor_id -> Z;
  drv_rowcount : trace -> cursor_id -> Z;
  drv_time : trace -> Q;
  drv_thread : string }.

(** A [DB] instance ([self.config], [self.conn]) and the trace. *)
Record state := State {
  config : db_cfg;
  conn : option conn_id;
  events : trace }.

Definition emit (ev : event) : M state unit :=
  fun s => (Return tt, State (config s) (conn s) (ev :: events s)).

Definition set_conn (c : option conn_id) : M state unit :=
  fun s => (Return tt, State (config s) c (events s)).

Definition get_self_conn : M state (option conn_id) :=
  fun s => (Return (conn s), s).

Section WithDriver.

Variable drv : Driver.

(** A driver call: the call is recorded, then the driver answers from the
    trace before the call. *)
Definition call {A} (ev : event) (answer : trace -> result A) : M state A :=
  fun s => (answer (events s), State (config s) (conn s) (ev :: events s)).

Definition time : M state Q := fun s => (Return (drv_time drv (events s)), s).

(** [conn.cursor()], [conn.close()], ... on a value that may be [None]. *)
Definition conn_cursor (c : option conn_id) : M state (option cursor_id) :=
  match c with
  | None => raise (none_attr "cursor")
  | Some c => call (EvCursor c) (fun t => drv_cursor drv t c)
  end.

Definition cursor_execute (k : option cursor_id) (a : list string)
  : M state unit :=
  match k with
  | None => raise (none_attr "execute")
  | Some k => call (EvExecute k a) (fun t => drv_execute drv t k a)
  end.

Definition cursor_fetchall (k : option cursor_id) : M state (list row) :=
  match k with
  | None => raise (none_attr "fetchall")
  | Some k => call (EvFetchall k) (fun t => drv_fetchall drv t k)
  end.

Definition cursor_lastrowid (k : option cursor_id) : M state Z :=
  match k with
  | None => raise (none_attr "lastrowid")
  | Some k => fun s => (Return (drv_lastrowid drv (events s) k), s)
  end.

Definition cursor_rowcount (k : option cursor_id) : M state Z :=
  match k with
  | None => raise (none_attr "rowcount")
  | Some k => fun s => (Return (drv_rowcount drv (events s) k), s)
  end.

(** [cursor and cursor.close()] *)
Definition cursor_and_close (k : option cursor_id) : M state unit :=
  match k with
  | None => ret tt
  | Some k => call (EvCursorClose k) (fun t => drv_cursor_close drv t k)
  end.

(** [connect_db(cfg)]: every exception of [MySQLdb.connect] is logged and
    turned into [None]. *)
Definition connect_db (cfg : db_cfg) : M state (option conn_id) :=
  try_except
    (c <- call (EvConnect cfg) (fun t => drv_connect drv t cfg) ;;
     ret (Some c))
    (fun e => Some (emit (LogCritical ("connect db: " ++ exn_msg e)) ;;;
                    ret None)).

(** [DB.get_conn] *)
Definition get_conn : M state (option conn_id) :=
  c <- get_self_conn ;;
  match c with
  | None =>
      cfg <- (fun s => (Return (config s), s)) ;;
      c' <- connect_db cfg ;;
      set_conn c' ;;;
      get_self_conn
  | Some _ => get_self_conn
  end.

(** [str(a[0])[:50] if a else 'unknown'] *)
Definition sql_preview (a : list string) : string :=
  match a with
  | [] => "unknown"
  | q :: _ => substring 0 50 q
  end.

(** The [except (AttributeError, MySQLdb.OperationalError)] test. *)
Definition is_transient (e : exn) : bool :=
  match exn_cls e with
  | AttributeError | OperationalError => true
  | _ => false
  end.

Definition is_integrity (e : exn) : bool :=
  match exn_cls e with IntegrityError => true | _ => false end.

Definition is_operational (e : exn) : bool :=
  match exn_cls e with OperationalError => true | _ => false end.

(** The [try] block of [DB.execute] (store.py lines 73-82): the first
    attempt.  It yields the value of the local [cursor]. *)
Definition first_attempt (a : list string) (kw_cursor : option cursor_id)
    (start_time : Q) : M state (option cursor_id) :=
  cursor <- match kw_cursor with
            | Some k => ret (Some k)             (* cursor or ... *)
            | None => c <- get_conn ;; conn_cursor c
            end ;;
  cursor_execute cursor a ;;;
  now <- time ;;
  let elapsed := (now - start_time)%Q in
  when_ (Qgtb elapsed (1 # 10))
        (emit (DB_SLOW (drv_thread drv) (sql_preview a) elapsed)) ;;;
  ret cursor.

(** [self.conn and self.conn.close()] *)
Definition conn_and_close : M state unit :=
  c <- get_self_conn ;;
  match c with
  | None => ret tt
  | Some c => call (EvConnClose c) (fun t => drv_conn_close drv t c)
  end.

(** The transient handler (lines 85-95). *)
Definition reconnect_handler (a : list string) (start_time : Q) (e : exn)
  : M state (option cursor_id) :=
  now <- time ;;
  let elapsed := (now - start_time)%Q in
  emit (DB_RECONNECT (drv_thread drv) (sql_preview a) elapsed (exn_msg e)) ;;;
  conn_and_close ;;;
  set_conn None ;;;
  c <- get_conn ;;
  cursor <- conn_cursor c ;;
  cursor_execute cursor a ;;;
  ret cursor.

(** The [except Exception] handler (lines 97-104). *)
Definition error_handler (a : list string) (start_time : Q) (e : exn)
  : M state (option cursor_id) :=
  now <- time ;;
  let elapsed := (now - start_time)%Q in
  emit (DB_ERROR (drv_thread drv) (sql_preview a) elapsed (exn_msg e)) ;;;
  raise e.

(** [DB.execute]; [a] are the positional arguments, [kw_cursor] is what
    [kw.pop] finds under the key cursor. *)
Definition execute (a : list string) (kw_cursor : option cursor_id)
  : M state (option cursor_id) :=
  start_time <- time ;;
  cursor <- try_except
              (first_attempt a kw_cursor start_time)
              (fun e => if is_transient e
                        then Some (reconnect_handler a start_time e)
                        else Some (error_handler a start_time e)) ;;
  ret cursor.

(** [DB.commit] and [DB.rollback]: an [OperationalError] drops the
    connection and is swallowed. *)
Definition commit : M state unit :=
  c <- get_self_conn ;;
  match c with
  | None => ret tt
  | Some c =>
      try_except (call (EvCommit c) (fun t => drv_commit drv t c))
                 (fun e => if is_operational e then Some (set_conn None)
                           else None)
  end.

Definition rollback : M state unit :=
  c <- get_self_conn ;;
  match c with
  | None => ret tt
  | Some c =>
      try_except (call (EvRollback c) (fun t => drv_rollback drv t c))
                 (fun e => if is_operational e then Some (set_conn None)
                           else None)
  end.

(** [DB.insert]: the local [cursor] is [None] until [execute] has returned,
    which is what the [finally] clause sees when [execute] raises. *)
Definition insert (a : list string) (kw_cursor : option cursor_id)
  : M state (option Z) :=
  fun s =>
    match execute a kw_cursor s with
    | (Raise e, s1) =>
        try_finally
          (try_except (raise e)
             (fun e => if is_integrity e then Some (rollback ;;; ret None)
                       else None))
          (cursor_and_close None) s1
    | (Return cursor, s1) =>
        try_finally
          (try_except
             (row_id <- cursor_lastrowid cursor ;;
              commit ;;;
              ret (Some row_id))
             (fun e => if is_integrity e then Some (rollback ;;; ret None)
                       else None))
          (cursor_and_close cursor) s1
    end.

(** [DB.update] *)
Definition update (a : list string) (kw_cursor : option cursor_id)
  : M state (option Z) :=
  fun s =>
    match execute a kw_cursor s with
    | (Raise e, s1) =>
        try_finally
          (try_except (raise e)
             (fun e => if is_integrity e then Some (rollback ;;; ret None)
                       else None))
          (cursor_and_close None) s1
    | (Return cursor, s1) =>
        try_finally
          (try_except
             (commit ;;;
              row_count <- cursor_rowcount cursor ;;
              ret (Some row_count))
             (fun e => if is_integrity e then Some (rollback ;;; ret None)
                       else None))
          (cursor_and_close cursor) s1
    end.

(** [DB.query_all] *)
Definition query_all (a : list string) (kw_cursor : option cursor_id)
  : M state (list row) :=
  fun s =>
    match execute a kw_cursor s with
    | (Raise e, s1) => try_finally (raise e) (cursor_and_close None) s1
    | (Return cursor, s1) =>
        try_finally (cursor_fetchall cursor) (cursor_and_close cursor) s1
    end.

(** [DB.query_one]: [rows[0]] or [None]. *)
Definition query_one (a : list string) (kw_cursor : option cursor_id)
  : M state (option row) :=
  rows <- query_all a kw_cursor ;;
  ret (match rows with r :: _ => Some r | [] => None end).

(** [DB.query_column]: [[row[0] for row in rows]]. *)
Fixpoint first_columns (rows : list row) : result (list string) :=
  match rows with
  | [] => Return []
  | [] :: _ => Raise (Exn IndexError "tuple index out of range")
  | (x :: _) :: rest =>
      match first_columns rest with
      | Return xs => Return (x :: xs)
      | Raise e => Raise e
      end
  end.

Definition query_column (a : list string) (kw_cursor : option cursor_id)
  : M state (list string) :=
  rows <- query_all a kw_cursor ;;
  fun s => (first_columns rows, s).

(** What the specification says [execute] does after a transient failure,
    in its words: close and discard the current connection, establish a new
    one, run the statement once more and hand back the new cursor; whatever
    fails on the way is not caught.  Compared with [reconnect_handler]
    below. *)
Definition reconnect_and_retry_spec (a : list string)
  : M state (option cursor_id) :=
  conn_and_close ;;;
  set_conn None ;;;
  cfg <- (fun s => (Return (config s), s)) ;;
  c <- connect_db cfg ;;
  set_conn c ;;;
  cursor <- conn_cursor c ;;
  cursor_execute cursor a ;;;
  ret cursor.

(** The statement [a] ran to completion on cursor [k]: the last driver call
    of the trace is that [execute], it returned, and at most the slow-query
    record follows it. *)
Definition completed (k : cursor_id) (a : list string) (t : trace) : Prop :=
  exists t0,
    drv_execute drv t0 k a = Return tt /\
    (t = EvExecute k a :: t0 \/
     exists th sql el, t = DB_SLOW th sql el :: EvExecute k a :: t0).

End WithDriver.

(** Counting in a trace: the statement executions handed to the driver, the
    DB_RECONNECT and the DB_ERROR records. *)
Definition attempts (t : trace) : nat :=
  length (List.filter (fun ev => match ev with EvExecute _ _ => true | _ => false end) t).

Definition reconnects (t : trace) : nat :=
  length (List.filter (fun ev => match ev with DB_RECONNECT _ _ _ _ => true | _ => false end) t).

Definition db_errors (t : trace) : nat :=
  length (List.filter (fun ev => match ev with DB_ERROR _ _ _ _ => true | _ => false end) t).

(** The state after a record has been logged. *)
Definition logged (ev : event) (s : state) : state :=
  State (config s) (conn s) (ev :: events s).

(** What a trace segment may hold when it comes from one attempt: at most
    one statement execution, no DB_RECONNECT and no DB_ERROR record. *)
Definition one_attempt (new : trace) : Prop :=
  (attempts new <= 1)%nat /\ reconnects new = 0%nat /\ db_errors new = 0%nat.

(** The connection events the retry leaves when the stale connection is
    closed. *)
Definition closed (s : state) : trace :=
  match conn s with Some c0 => [EvConnClose c0] | None => [] end.

(** Counting the connection attempts and the cursor closes of a trace. *)
Definition connects (t : trace) : nat :=
  length (List.filter (fun ev => match ev with EvConnect _ => true | _ => false end) t).

(** A row without columns. *)
Definition empty_row (r : row) : bool :=
  match r with [] => true | _ :: _ => false end.

End Store.

(** * rrd/corelib/__init__.py *)

Module Corelib.

(** The value stored in [_active_requests] under a request id. *)
Record CallRecord := {
  cr_method : string;
  cr_url : string;
  cr_start : Q;
  cr_caller : string;
  cr_thread : string }.

Record token := { tok_name : string; tok_sig : string }.
Record response := { status_code : Z }.

(** A header value: the Apitoken header is [json.dumps] of name and sig. *)
Inductive header_value :=
| HApitoken (name sig : string)
| HText (v : string).

Definition headers := list (string * header_value).

(** A frame of [traceback.extract_stack()]. *)
Record frame := { filename : string; lineno : Z; name : string }.

(** What the surrounding request supplies to one call: [g.user_token], the
    name of the current thread and the call stack (innermost frame last). *)
Record context := {
  g_user_token : option token;
  thread_name : string;
  stack : list frame }.

(** Keyword arguments the function looks at. *)
Record kwargs := {
  kw_url : option string;
  kw_headers : option headers }.

Inductive event :=
| EvHttp (method : string) (args : list string) (hs : headers)
| REQ_START (id : Z) (method url caller thread : string) (active_count : nat)
| REQ_ERROR (id : Z) (error : string)
| REQ_SUCCESS (id : Z) (method url : string) (status : Z) (elapsed : Q)
| REQ_SLOW (id : Z) (method url : string) (elapsed : Q) (caller : string)
| REQ_TIMEOUT (id : Z) (method url : string) (elapsed : Q)
              (caller error : string)
| REQ_CONN_ERROR (id : Z) (method url : string) (elapsed : Q)
                 (caller error : string)
| REQ_EXCEPTION (id : Z) (method url : string) (elapsed : Q)
                (caller error : string)
| REQ_END (id : Z) (elapsed : Q) (active_count : nat).

Definition trace := list event.

(** The [requests] library and the clock. *)
Record Env := {
  env_http : trace -> string -> list string -> headers -> result response;
  env_time : trace -> Q }.

(** The module globals and the trace (most recent event first). *)
Record state := State {
  _request_counter : Z;
  _active_requests : gmap Z CallRecord;
  events : trace }.

Definition emit (ev : event) : M state unit :=
  fun s => (Return tt,
            State (_request_counter s) (_active_requests s) (ev :: events s)).

(** ** Caller attribution *)

Fixpoint contains (needle hay : string) : bool :=
  if String.prefix needle hay then true
  else match hay with
       | EmptyString => false
       | String _ hay' => contains needle hay'
       end.

Fixpoint drop_chars (n : nat) (s : string) : string :=
  match n, s with
  | O, _ => s
  | S n, String _ s' => drop_chars n s'
  | S _, EmptyString => EmptyString
  end.

(** [s.split(sep)[-1]]: the text after the last occurrence of [sep] found by
    the left-to-right scan; [skip] counts the characters of an occurrence
    still to step over, [cur] is the current last piece. *)
Fixpoint last_piece (sep : string) (skip : nat) (s cur : string) : string :=
  match s with
  | EmptyString => cur
  | String _ s' =>
      match skip with
      | S n => last_piece sep n s' cur
      | O => if String.prefix sep s
             then last_piece sep (String.length sep - 1) s'
                             (drop_chars (String.length sep) s)
             else last_piece sep 0 s' cur
      end
  end.

Definition split_last (sep s : string) : string := last_piece sep 0 s s.

Fixpoint digits_of_pos (fuel : nat) (p : Z) (acc : string) : string :=
  match fuel with
  | O => acc
  | S fuel =>
      let d := String (ascii_of_nat (48 + Z.to_nat (p mod 10))) acc in
      if p <? 10 then d else digits_of_pos fuel (p / 10) d
  end.

(** [str(n)] for an integer. *)
Definition str_of_Z (n : Z) : string :=
  if n <? 0 then "-" ++ digits_of_pos (S (Z.to_nat (- n))) (- n) ""
  else digits_of_pos (S (Z.to_nat n)) n "".

(** [stack[:-1]] *)
Definition drop_last {A} (l : list A) : list A := removelast l.

Fixpoint first_app_frame (frames : list frame) : string :=
  match frames with
  | [] => "unknown"
  | f :: rest =>
      if contains "rrd/" (filename f) && negb (contains "__init__.py" (filename f))
      then split_last "rrd/" (filename f) ++ ":" ++ str_of_Z (lineno f)
           ++ ":" ++ name f
      else first_app_frame rest
  end.

Definition find_caller (st : list frame) : string :=
  first_app_frame (rev (drop_last st)).

(** ** auth_requests *)

(** What a call keeps in local variables after admission. *)
Record locals := {
  request_id : Z;
  caller : string;
  start_time : Q;
  url : string }.

Section WithEnv.

Variable env : Env.

Definition time : M state Q := fun s => (Return (env_time env (events s)), s).

(** [with _request_counter_lock: _request_counter += 1; request_id = ...] *)
Definition next_request_id : M state Z :=
  fun s => let n := _request_counter s + 1 in
           (Return n, State n (_active_requests s) (events s)).

(** [with _active_requests_lock:] the size is read before the insertion. *)
Definition register (id : Z) (r : CallRecord) : M state nat :=
  fun s => (Return (size (_active_requests s)),
            State (_request_counter s) (<[id := r]> (_active_requests s))
                  (events s)).

(** The locked part of the [finally] clause: the entry is deleted when
    present and the size is read after that. *)
Definition unregister (id : Z) : M state nat :=
  fun s => let m := match _active_requests s !! id with
                    | Some _ => delete id (_active_requests s)
                    | None => _active_requests s
                    end in
           (Return (size m), State (_request_counter s) m (events s)).

(** [args[0] if args else kwargs.get('url', 'unknown')] *)
Definition url_of (args : list string) (kw : kwargs) : string :=
  match args with
  | u :: _ => u
  | [] => match kw_url kw with Some u => u | None => "unknown" end
  end.

(** [headers.update(extra)]: an existing key keeps its place and takes the
    new value, a new key goes to the end. *)
Fixpoint header_set (k : string) (v : header_value) (hs : headers) : headers :=
  match hs with
  | [] => [(k, v)]
  | (k', v') :: rest =>
      if String.eqb k k' then (k, v) :: rest
      else (k', v') :: header_set k v rest
  end.

Definition headers_update (hs extra : headers) : headers :=
  fold_left (fun acc kv => header_set (fst kv) (snd kv) acc) extra hs.

(** Lines 36-65: identity, caller, registration, REQ_START. *)
Definition admit_call (ctx : context) (method : string) (args : list string)
    (kw : kwargs) : M state locals :=
  request_id <- next_request_id ;;
  let caller := find_caller (stack ctx) in
  start_time <- time ;;
  let url := url_of args kw in
  active_count <- register request_id
                    {| cr_method := method; cr_url := url;
                       cr_start := start_time; cr_caller := caller;
                       cr_thread := thread_name ctx |} ;;
  emit (REQ_START request_id method url caller (thread_name ctx)
                  active_count) ;;;
  ret {| request_id := request_id; caller := caller;
         start_time := start_time; url := url |}.

(** The body of the [try] (lines 85-109). *)
Definition perform (method : string) (args : list string) (hs : headers)
    (l : locals) : M state response :=
  response <-
    (if String.eqb method "POST" || String.eqb method "GET"
        || String.eqb method "PUT" || String.eqb method "DELETE"
     then fun s => (env_http env (events s) method args hs,
                    State (_request_counter s) (_active_requests s)
                          (EvHttp method args hs :: events s))
     else raise (Exn PlainException "invalid http method")) ;;
  now <- time ;;
  let elapsed := (now - start_time l)%Q in
  emit (REQ_SUCCESS (request_id l) method (url l) (status_code response)
                    elapsed) ;;;
  when_ (Qgtb elapsed 2)
        (emit (REQ_SLOW (request_id l) method (url l) elapsed (caller l))) ;;;
  ret response.

(** The three [except] clauses (lines 111-133), in their order; each logs
    and re-raises. *)
Definition on_error (method : string) (l : locals) (e : exn)
  : M state response :=
  now <- time ;;
  let elapsed := (now - start_time l)%Q in
  emit (match exn_cls e with
        | Timeout =>
            REQ_TIMEOUT (request_id l) method (url l) elapsed (caller l)
                        (exn_msg e)
        | ConnectionError =>
            REQ_CONN_ERROR (request_id l) method (url l) elapsed (caller l)
                           (exn_msg e)
        | _ =>
            REQ_EXCEPTION (request_id l) method (url l) elapsed (caller l)
                          (exn_msg e)
        end) ;;;
  raise e.

(** The [finally] clause (lines 135-145). *)
Definition cleanup (l : locals) : M state unit :=
  active_count <- unregister (request_id l) ;;
  now <- time ;;
  let elapsed := (now - start_time l)%Q in
  emit (REQ_END (request_id l) elapsed active_count).

(** Lines 67-145: token check, headers, the guarded network call. *)
Definition complete_call (ctx : context) (method : string)
    (args : list string) (kw : kwargs) (l : locals) : M state response :=
  match g_user_token ctx with
  | None =>
      emit (REQ_ERROR (request_id l) "no_api_token") ;;;
      raise (Exn PlainException "no api token")
  | Some tok =>
      let hs := [("Apitoken", HApitoken (tok_name tok) (tok_sig tok))] in
      let hs := match kw_headers kw with
                | Some extra => headers_update hs extra
                | None => hs
                end in
      try_finally
        (try_except (perform method args hs l)
                    (fun e => Some (on_error method l e)))
        (cleanup l)
  end.

Definition auth_requests (ctx : context) (method : string)
    (args : list string) (kw : kwargs) : M state response :=
  l <- admit_call ctx method args kw ;;
  complete_call ctx method args kw l.

End WithEnv.

(** The module as loaded: counter at 0, registry empty. *)
Definition initial : state := State 0 ∅ [].

(** A computation that leaves the registry as it found it. *)
Definition keeps_registry {A} (m : M state A) : Prop :=
  forall s r s', m s = (r, s') -> _active_requests s' = _active_requests s.

(** Whether the trace holds a REQ_END record for [id]. *)
Definition has_req_end (id : Z) (t : trace) : bool :=
  existsb (fun ev => match ev with
                     | REQ_END i _ _ => Z.eqb i id
                     | _ => false
                     end) t.

(** The four methods [perform] knows. *)
Definition is_supported (method : string) : bool :=
  String.eqb method "POST" || String.eqb method "GET"
  || String.eqb method "PUT" || String.eqb method "DELETE".

(** The headers sent with a call: the Apitoken header, then the headers of
    the caller on top. *)
Definition built_headers (tok : token) (kw : kwargs) : headers :=
  let hs := [("Apitoken", HApitoken (tok_name tok) (tok_sig tok))] in
  match kw_headers kw with
  | Some extra => headers_update hs extra
  | None => hs
  end.

(** [hs[k]]: the value of the first pair with key [k]. *)
Fixpoint header_get (k : string) (hs : headers) : option header_value :=
  match hs with
  | [] => None
  | (k', v) :: rest => if String.eqb k k' then Some v else header_get k rest
  end.

(** The test and the format of the caller attribution. *)
Definition is_app_frame (f : frame) : bool :=
  contains "rrd/" (filename f) && negb (contains "__init__.py" (filename f)).

Definition format_frame (f : frame) : string :=
  split_last "rrd/" (filename f) ++ ":" ++ str_of_Z (lineno f)
  ++ ":" ++ name f.

(** The network calls of a trace. *)
Definition http_calls (t : trace) : nat :=
  length (List.filter (fun ev => match ev with EvHttp _ _ _ => true | _ => false end) t).

(** The record of the outcome of the network call. *)
Definition outcome_records (l : locals) (method : string) (elapsed : Q)
    (outcome : result response) : list event :=
  match outcome with
  | Return resp =>
      (if Qgtb elapsed 2
       then [REQ_SLOW (request_id l) method (url l) elapsed (caller l)]
       else [])
      ++ [REQ_SUCCESS (request_id l) method (url l) (status_code resp)
                      elapsed]
  | Raise e =>
      [match exn_cls e with
       | Timeout =>
           REQ_TIMEOUT (request_id l) method (url l) elapsed (caller l)
                       (exn_msg e)
       | ConnectionError =>
           REQ_CONN_ERROR (request_id l) method (url l) elapsed (caller l)
                          (exn_msg e)
       | _ =>
           REQ_EXCEPTION (request_id l) method (url l) elapsed (caller l)
                         (exn_msg e)
       end]
  end.

(** Calls made one after the other, each run to its end. *)
Fixpoint run_calls (env : Env)
    (calls : list (context * string * list string * kwargs)) (s : state)
  : state :=
  match calls with
  | [] => s
  | (ctx, method, args, kw) :: rest =>
      run_calls env rest (snd (auth_requests env ctx method args kw s))
  end.


(** The calls of a list that come without a token. *)
Definition tokenless
    (calls : list (context * string * list string * kwargs)) : nat :=
  length (List.filter (fun c => match g_user_token (fst (fst (fst c))) with
                                | None => true
                                | Some _ => false
                                end) calls).

(** No registered id lies above the counter. *)
Definition ids_below_counter (s : state) : Prop :=
  forall k, is_Some (_active_requests s !! k) -> k <= _request_counter s.

End Corelib.

(** * logs/analyze_logs.py *)

Module Analyzer.

(** ** Characters, numbers, timestamps *)

(** [\d] and [\S] on the characters of a line.  A line is a string of
    one-byte characters; the white space of [\S] is that of a Python 3 [str]
    pattern below code 128: tab to carriage return, the four separators
    28-31 and the space. *)
Definition is_digit (c : ascii) : bool :=
  let n := nat_of_ascii c in ((48 <=? n) && (n <=? 57))%nat.

Definition is_space (c : ascii) : bool :=
  let n := nat_of_ascii c in
  (((9 <=? n) && (n <=? 13)) || ((28 <=? n) && (n <=? 32)))%nat.

Definition non_space (c : ascii) : bool := negb (is_space c).

(** [[\d.]] *)
Definition digit_or_dot (c : ascii) : bool :=
  is_digit c || Ascii.eqb c "."%char.

Definition digit_value (c : ascii) : Z := Z.of_nat (nat_of_ascii c) - 48.

(** The number written by a string of digits, most significant first;
    [None] when a character is not a digit. *)
Fixpoint digits_value (s : string) (acc : Z) : option Z :=
  match s with
  | EmptyString => Some acc
  | String c s' =>
      if is_digit c then digits_value s' (acc * 10 + digit_value c) else None
  end.

(** [int(text)] on a text matched by [\d+] (the interpreter's limit on the
    number of digits of such a text is not modelled). *)
Definition int_of (text : string) : Z :=
  match digits_value text 0 with Some n => n | None => 0 end.

(** The text before the first dot and, when there is a dot, the text after
    it. *)
Fixpoint split_dot (s : string) : string * option string :=
  match s with
  | EmptyString => (EmptyString, None)
  | String c s' =>
      if Ascii.eqb c "."%char then (EmptyString, Some s')
      else let '(a, b) := split_dot s' in (String c a, b)
  end.

(** [float(text)] on a text matched by [[\d.]+]: digits with at most one dot
    and at least one digit, otherwise [ValueError].  The value is kept as
    the exact decimal number the text writes; the binary rounding of a
    Python float is not modelled. *)
Definition float_of (text : string) : result Q :=
  let bad := Raise (Exn ValueError
                        ("could not convert string to float: '" ++ text ++ "'")) in
  let '(ip, fp) := split_dot text in
  let fp := match fp with Some f => f | None => EmptyString end in
  match digits_value ip 0, digits_value fp 0 with
  | Some _, Some _ =>
      if ((String.length ip + String.length fp)%nat =? 0)%nat then bad
      else match digits_value (ip ++ fp) 0 with
           | Some n =>
               Return (Qmake n (Z.to_pos (10 ^ Z.of_nat (String.length fp))))
           | None => bad
           end
  | _, _ => bad
  end.

Record datetime := {
  year : Z; month : Z; day : Z; hour : Z; minute : Z; second : Z }.

Definition is_leap (y : Z) : bool :=
  ((y mod 4 =? 0) && negb (y mod 100 =? 0)) || (y mod 400 =? 0).

Definition days_in_month (y m : Z) : Z :=
  if m =? 2 then (if is_leap y then 29 else 28)
  else if (m =? 4) || (m =? 6) || (m =? 9) || (m =? 11) then 30
  else 31.

(** [datetime.strptime(text, '%Y-%m-%d %H:%M:%S')] on a text of the shape
    dddd-dd-dd dd:dd:dd; [None] stands for its [ValueError]. *)
Definition strptime (text : string) : option datetime :=
  let y := int_of (substring 0 4 text) in
  let m := int_of (substring 5 2 text) in
  let d := int_of (substring 8 2 text) in
  let hh := int_of (substring 11 2 text) in
  let mm := int_of (substring 14 2 text) in
  let ss := int_of (substring 17 2 text) in
  if (1 <=? y) && (1 <=? m) && (m <=? 12) && (1 <=? d)
     && (d <=? days_in_month y m) && (hh <=? 23) && (mm <=? 59) && (ss <=? 59)
  then Some {| year := y; month := m; day := d;
               hour := hh; minute := mm; second := ss |}
  else None.

(** ** The regular expressions

    The patterns of the module are sequences of three kinds of items: a
    literal text, one character of a class, and a capturing group [(c+)] over
    a class [c].  [+] is greedy: the longest run is tried first and shortened
    until the rest of the pattern matches. *)

Inductive item :=
| Lit (text : string)
| Cls (cls : ascii -> bool)
| Cap (cls : ascii -> bool).

Definition regex := list item.

Fixpoint strip_prefix (p s : string) : option string :=
  match p, s with
  | EmptyString, _ => Some s
  | String a p', String b s' => if Ascii.eqb a b then strip_prefix p' s' else None
  | String _ _, EmptyString => None
  end.

(** The group [(c+)] followed by the continuation [k]: the captured text and
    what [k] captured. *)
Fixpoint cap_plus (cls : ascii -> bool) (k : string -> option (list string))
    (s : string) : option (string * list string) :=
  match s with
  | EmptyString => None
  | String c s' =>
      if cls c then
        match cap_plus cls k s' with
        | Some (g, caps) => Some (String c g, caps)
        | None => match k s' with
                  | Some caps => Some (String c EmptyString, caps)
                  | None => None
                  end
        end
      else None
  end.

(** A match of the pattern at the start of [s]: the captured groups. *)
Fixpoint match_here (re : regex) (s : string) : option (list string) :=
  match re with
  | [] => Some []
  | Lit text :: rest =>
      match strip_prefix text s with
      | Some s' => match_here rest s'
      | None => None
      end
  | Cls cls :: rest =>
      match s with
      | String c s' => if cls c then match_here rest s' else None
      | EmptyString => None
      end
  | Cap cls :: rest =>
      match cap_plus cls (match_here rest) s with
      | Some (g, caps) => Some (g :: caps)
      | None => None
      end
  end.

(** [re.search]: the leftmost position at which the pattern matches. *)
Fixpoint re_search (re : regex) (s : string) : option (list string) :=
  match match_here re s with
  | Some caps => Some caps
  | None => match s with
            | EmptyString => None
            | String _ s' => re_search re s'
            end
  end.

(** [match.group(n)], [n >= 1]. *)
Definition group (m : list string) (n : nat) : string :=
  nth (n - 1) m EmptyString.

Definition d := Cls is_digit.

(** [(\d{4}-\d{2}-\d{2} \d{2}:\d{2}:\d{2})]; its only group is the whole
    match, the first 19 characters. *)
Definition TIMESTAMP_RE : regex :=
  [d; d; d; d; Lit "-"; d; d; Lit "-"; d; d; Lit " ";
   d; d; Lit ":"; d; d; Lit ":"; d; d].

Definition HTTP_START_RE : regex :=
  [Lit "[HTTP_START] request_id="; Cap non_space; Lit " method=";
   Cap non_space; Lit " path="; Cap non_space].

Definition HTTP_END_RE : regex :=
  [Lit "[HTTP_END] request_id="; Cap non_space; Lit " method=";
   Cap non_space; Lit " path="; Cap non_space; Lit " status=";
   Cap non_space; Lit " elapsed="; Cap digit_or_dot; Lit "s"].

Definition REQ_START_RE : regex :=
  [Lit "[REQ_START] id="; Cap is_digit; Lit " method="; Cap non_space;
   Lit " url="; Cap non_space; Lit " caller="; Cap non_space;
   Lit " thread="; Cap non_space; Lit " active_count="; Cap is_digit].

Definition REQ_END_RE : regex :=
  [Lit "[REQ_END] id="; Cap is_digit; Lit " elapsed="; Cap digit_or_dot;
   Lit "s"].

Definition REQ_SLOW_RE : regex :=
  [Lit "[REQ_SLOW] id="; Cap is_digit; Lit " method="; Cap non_space;
   Lit " url="; Cap non_space; Lit " elapsed="; Cap digit_or_dot;
   Lit "s caller="; Cap non_space].

Definition REQ_TIMEOUT_RE : regex :=
  [Lit "[REQ_TIMEOUT] id="; Cap is_digit; Lit " method="; Cap non_space;
   Lit " url="; Cap non_space; Lit " elapsed="; Cap digit_or_dot; Lit "s"].

(** ** The analyzer state *)

(** A Python dict in insertion order: assigning to a present key keeps the
    key's place, a new key goes to the end. *)
Section Dict.
Context {V : Type}.
Definition dict := list (string * V).

Fixpoint dict_get (k : string) (dct : dict) : option V :=
  match dct with
  | [] => None
  | (k', v) :: rest => if String.eqb k k' then Some v else dict_get k rest
  end.

Fixpoint dict_set (k : string) (v : V) (dct : dict) : dict :=
  match dct with
  | [] => [(k, v)]
  | (k', v') :: rest =>
      if String.eqb k k' then (k, v) :: rest
      else (k', v') :: dict_set k v rest
  end.

Definition dict_mem (k : string) (dct : dict) : bool :=
  match dict_get k dct with Some _ => true | None => false end.

Definition dict_keys (dct : dict) : list string := map fst dct.
Definition dict_values (dct : dict) : list V := map snd dct.
End Dict.
Arguments dict V : clear implicits.

(** An entry of [http_requests]; a key that is set later is an option. *)
Record HttpRequest := {
  h_start : datetime;
  h_method : string;
  h_path : string;
  h_end : option datetime;
  h_status : option string;
  h_elapsed : option Q }.

(** An entry of [api_requests]. *)
Record ApiRequest := {
  a_start : datetime;
  a_method : string;
  a_url : string;
  a_caller : string;
  a_active_count_start : Z;
  a_end : option datetime;
  a_elapsed : option Q }.

Record SlowRequest := {
  s_req_id : string;
  s_timestamp : datetime;
  s_elapsed : Q;
  s_caller : string }.

Record TimeoutRecord := {
  t_req_id : string;
  t_timestamp : datetime;
  t_url : string;
  t_elapsed : Q }.

Record LogAnalyzer := {
  http_requests : dict HttpRequest;
  api_requests : dict ApiRequest;
  slow_requests : list SlowRequest;
  timeouts : list TimeoutRecord;
  errors : list string;
  concurrent_peak : Z }.

(** [LogAnalyzer()] *)
Definition new_analyzer : LogAnalyzer :=
  {| http_requests := []; api_requests := []; slow_requests := [];
     timeouts := []; errors := []; concurrent_peak := 0 |}.

Definition set_http (h : dict HttpRequest) (st : LogAnalyzer) : LogAnalyzer :=
  {| http_requests := h; api_requests := api_requests st;
     slow_requests := slow_requests st; timeouts := timeouts st;
     errors := errors st; concurrent_peak := concurrent_peak st |}.

Definition set_api (a : dict ApiRequest) (st : LogAnalyzer) : LogAnalyzer :=
  {| http_requests := http_requests st; api_requests := a;
     slow_requests := slow_requests st; timeouts := timeouts st;
     errors := errors st; concurrent_peak := concurrent_peak st |}.

Definition set_peak (p : Z) (st : LogAnalyzer) : LogAnalyzer :=
  {| http_requests := http_requests st; api_requests := api_requests st;
     slow_requests := slow_requests st; timeouts := timeouts st;
     errors := errors st; concurrent_peak := p |}.

Definition add_slow (r : SlowRequest) (st : LogAnalyzer) : LogAnalyzer :=
  {| http_requests := http_requests st; api_requests := api_requests st;
     slow_requests := slow_requests st ++ [r]; timeouts := timeouts st;
     errors := errors st; concurrent_peak := concurrent_peak st |}.

Definition add_timeout (r : TimeoutRecord) (st : LogAnalyzer) : LogAnalyzer :=
  {| http_requests := http_requests st; api_requests := api_requests st;
     slow_requests := slow_requests st; timeouts := timeouts st ++ [r];
     errors := errors st; concurrent_peak := concurrent_peak st |}.

(** ** The line handlers *)

(** [parse_line]: the timestamp, or [None]. *)
Definition parse_line (line : string) : option (datetime * string) :=
  match match_here TIMESTAMP_RE line with
  | None => None
  | Some _ =>
      match strptime (substring 0 19 line) with
      | Some ts => Some (ts, line)
      | None => None
      end
  end.

Definition analyze_http_start (m : list string) (timestamp : datetime)
  : M LogAnalyzer unit :=
  fun st =>
    let request_id := group m 1 in
    let method := group m 2 in
    let path := group m 3 in
    (Return tt,
     set_http (dict_set request_id
                 {| h_start := timestamp; h_method := method; h_path := path;
                    h_end := None; h_status := None; h_elapsed := None |}
                 (http_requests st)) st).

Definition analyze_http_end (m : list string) (timestamp : datetime)
  : M LogAnalyzer unit :=
  fun st =>
    let request_id := group m 1 in
    let status := group m 4 in
    match float_of (group m 5) with
    | Raise e => (Raise e, st)
    | Return elapsed =>
        match dict_get request_id (http_requests st) with
        | Some r =>
            (Return tt,
             set_http (dict_set request_id
                         {| h_start := h_start r; h_method := h_method r;
                            h_path := h_path r; h_end := Some timestamp;
                            h_status := Some status;
                            h_elapsed := Some elapsed |}
                         (http_requests st)) st)
        | None => (Return tt, st)
        end
    end.

Definition analyze_req_start (m : list string) (timestamp : datetime)
  : M LogAnalyzer unit :=
  fun st =>
    let req_id := group m 1 in
    let method := group m 2 in
    let url := group m 3 in
    let caller := group m 4 in
    let active_count := int_of (group m 6) in
    let st1 :=
      set_api (dict_set req_id
                 {| a_start := timestamp; a_method := method; a_url := url;
                    a_caller := caller; a_active_count_start := active_count;
                    a_end := None; a_elapsed := None |}
                 (api_requests st)) st in
    (Return tt,
     if concurrent_peak st1 <? active_count then set_peak active_count st1
     else st1).

Definition analyze_req_end (m : list string) (timestamp : datetime)
  : M LogAnalyzer unit :=
  fun st =>
    let req_id := group m 1 in
    match float_of (group m 2) with
    | Raise e => (Raise e, st)
    | Return elapsed =>
        match dict_get req_id (api_requests st) with
        | Some r =>
            (Return tt,
             set_api (dict_set req_id
                        {| a_start := a_start r; a_method := a_method r;
                           a_url := a_url r; a_caller := a_caller r;
                           a_active_count_start := a_active_count_start r;
                           a_end := Some timestamp;
                           a_elapsed := Some elapsed |}
                        (api_requests st)) st)
        | None => (Return tt, st)
        end
    end.

Definition analyze_slow (m : list string) (timestamp : datetime)
  : M LogAnalyzer unit :=
  fun st =>
    let req_id := group m 1 in
    match float_of (group m 4) with
    | Raise e => (Raise e, st)
    | Return elapsed =>
        let caller := group m 5 in
        (Return tt,
         add_slow {| s_req_id := req_id; s_timestamp := timestamp;
                     s_elapsed := elapsed; s_caller := caller |} st)
    end.

Definition analyze_timeout (m : list string) (timestamp : datetime)
  : M LogAnalyzer unit :=
  fun st =>
    let req_id := group m 1 in
    let url := group m 3 in
    match float_of (group m 4) with
    | Raise e => (Raise e, st)
    | Return elapsed =>
        (Return tt,
         add_timeout {| t_req_id := req_id; t_timestamp := timestamp;
                        t_url := url; t_elapsed := elapsed |} st)
    end.

(** ** analyze_file *)

Inductive tag :=
| HTTP_START | HTTP_END | REQ_START | REQ_END | REQ_SLOW | REQ_TIMEOUT.

(** The patterns in the order in which the loop body tries them. *)
Definition patterns : list (tag * regex) :=
  [(HTTP_START, HTTP_START_RE); (HTTP_END, HTTP_END_RE);
   (REQ_START, REQ_START_RE); (REQ_END, REQ_END_RE);
   (REQ_SLOW, REQ_SLOW_RE); (REQ_TIMEOUT, REQ_TIMEOUT_RE)].

(** The first pattern that matches, with its match. *)
Fixpoint first_match (pats : list (tag * regex)) (line : string)
  : option (tag * list string) :=
  match pats with
  | [] => None
  | (t, re) :: rest =>
      match re_search re line with
      | Some m => Some (t, m)
      | None => first_match rest line
      end
  end.

Definition handler (t : tag) : list string -> datetime -> M LogAnalyzer unit :=
  match t with
  | HTTP_START => analyze_http_start
  | HTTP_END => analyze_http_end
  | REQ_START => analyze_req_start
  | REQ_END => analyze_req_end
  | REQ_SLOW => analyze_slow
  | REQ_TIMEOUT => analyze_timeout
  end.

(** One turn of the loop of [analyze_file]. *)
Definition analyze_line (line : string) : M LogAnalyzer unit :=
  match parse_line line with
  | None => ret tt
  | Some (timestamp, line) =>
      match first_match patterns line with
      | Some (t, m) => handler t m timestamp
      | None => ret tt
      end
  end.

(** [analyze_file]: the lines in order; an exception ends the loop. *)
Fixpoint analyze_file (file_handle : list string) : M LogAnalyzer unit :=
  match file_handle with
  | [] => ret tt
  | line :: rest => analyze_line line ;;; analyze_file rest
  end.

(** ** generate_report

    The report is kept as the values its lines print, section by section, in
    the order of the source. *)

Definition Qltb (a b : Q) : bool := negb (Qle_bool b a).

(** [max(a, b)] and [min(a, b)]: the first argument unless the second is
    strictly beyond it. *)
Definition qmax (a b : Q) : Q := if Qltb a b then b else a.
Definition qmin (a b : Q) : Q := if Qltb b a then b else a.

Definition qsum (l : list Q) : Q := fold_left Qplus l 0%Q.
Definition zsum (l : list Z) : Z := fold_left Z.add l 0.

Definition max_of (x : Q) (l : list Q) : Q := fold_left qmax l x.
Definition min_of (x : Q) (l : list Q) : Q := fold_left qmin l x.
Definition zmax_of (x : Z) (l : list Z) : Z := fold_left Z.max l x.

Definition mean (l : list Q) : Q := (qsum l / inject_Z (Z.of_nat (length l)))%Q.

(** [sorted(l, key=..., reverse=True)]: stable, equal keys keep their
    order. *)
Fixpoint insert_desc {A} (key : A -> Q) (x : A) (l : list A) : list A :=
  match l with
  | [] => [x]
  | y :: l' => if Qltb (key y) (key x) then x :: y :: l'
               else y :: insert_desc key x l'
  end.

Definition sort_desc {A} (key : A -> Q) (l : list A) : list A :=
  fold_left (fun acc x => insert_desc key x acc) l [].

(** [sorted(keys)] on integers. *)
Fixpoint insert_asc {A} (x : Z * A) (l : list (Z * A)) : list (Z * A) :=
  match l with
  | [] => [x]
  | y :: l' => if fst x <? fst y then x :: y :: l' else y :: insert_asc x l'
  end.

Definition sort_asc {A} (l : list (Z * A)) : list (Z * A) :=
  fold_left (fun acc x => insert_asc x acc) l [].

(** [%H:%M:%S] of a timestamp. *)
Definition clock_time := (Z * Z * Z)%type.
Definition strftime (ts : datetime) : clock_time :=
  (hour ts, minute ts, second ts).

Record HttpLine := {
  hl_elapsed : Q; hl_method : string; hl_path : string; hl_status : string }.

Record HttpSummary := {
  http_mean : Q; http_max : Q; http_min : Q; http_slowest : list HttpLine }.

Record UrlStats := { us_count : Z; us_total : Q; us_max : Q }.

Record UrlLine := {
  ul_url : string; ul_count : Z; ul_avg : Q; ul_max : Q; ul_total : Q }.

Record ApiSummary := {
  api_mean : Q; api_max : Q; api_by_url : list UrlLine }.

Record SlowLine := {
  sl_time : clock_time; sl_elapsed : Q; sl_caller : string;
  sl_url : option string }.

Record TimeoutLine := {
  tl_time : clock_time; tl_url : string; tl_elapsed : Q }.

(** A line of the distribution: the level, how often, the length of the
    bar. *)
Record DistLine := { dl_level : Z; dl_times : Z; dl_bar : Z }.

Record ConcurrencySummary := {
  conc_mean : Q; conc_max : Z; conc_dist : list DistLine }.

Inductive finding :=
| FTimeouts (n : nat)
| FPeak (peak : Z)
| FLongCall (elapsed : Q)
| FSlowCaller (caller : string) (times : Z)
| FNothingFound.

Record Report := {
  r_http_total : nat;
  r_api_total : nat;
  r_slow_total : nat;
  r_timeout_total : nat;
  r_peak : Z;
  r_http : option HttpSummary;
  r_api : option ApiSummary;
  r_slow : list SlowLine;
  r_timeouts : list TimeoutLine;
  r_concurrency : option ConcurrencySummary;
  r_findings : list finding }.

(** [[req['elapsed'] for req in ... if 'elapsed' in req]] *)
Definition elapsed_of {A} (get : A -> option Q) (l : list A) : list Q :=
  flat_map (fun r => match get r with Some e => [e] | None => [] end) l.

Definition http_with_elapsed (dct : dict HttpRequest)
  : list (Q * HttpRequest) :=
  flat_map (fun kv => match h_elapsed (snd kv) with
                      | Some e => [(e, snd kv)]
                      | None => []
                      end) dct.

Definition http_line (x : Q * HttpRequest) : HttpLine :=
  {| hl_elapsed := fst x; hl_method := h_method (snd x);
     hl_path := h_path (snd x);
     hl_status := match h_status (snd x) with
                  | Some s => s
                  | None => "unknown"
                  end |}.

Definition http_summary (st : LogAnalyzer) : option HttpSummary :=
  match elapsed_of h_elapsed (dict_values (http_requests st)) with
  | [] => None
  | e :: es =>
      Some {| http_mean := mean (e :: es);
              http_max := max_of e es;
              http_min := min_of e es;
              http_slowest :=
                map http_line
                    (firstn 10 (sort_desc fst
                                  (http_with_elapsed (http_requests st)))) |}
  end.

(** [url_stats]: a [defaultdict] whose entries start at count 0, total 0,
    max 0. *)
Definition url_stats_add (dct : dict UrlStats) (r : ApiRequest)
  : dict UrlStats :=
  match a_elapsed r with
  | None => dct
  | Some e =>
      let old := match dict_get (a_url r) dct with
                 | Some s => s
                 | None => {| us_count := 0; us_total := 0%Q; us_max := 0%Q |}
                 end in
      dict_set (a_url r)
               {| us_count := us_count old + 1;
                  us_total := (us_total old + e)%Q;
                  us_max := qmax (us_max old) e |} dct
  end.

Definition url_line (kv : string * UrlStats) : UrlLine :=
  {| ul_url := fst kv; ul_count := us_count (snd kv);
     ul_avg := (us_total (snd kv) / inject_Z (us_count (snd kv)))%Q;
     ul_max := us_max (snd kv); ul_total := us_total (snd kv) |}.

Definition api_elapsed (st : LogAnalyzer) : list Q :=
  elapsed_of a_elapsed (dict_values (api_requests st)).

Definition api_summary (st : LogAnalyzer) : option ApiSummary :=
  match api_elapsed st with
  | [] => None
  | e :: es =>
      let url_stats :=
        fold_left url_stats_add (dict_values (api_requests st)) [] in
      Some {| api_mean := mean (e :: es);
              api_max := max_of e es;
              api_by_url :=
                map url_line
                    (firstn 10 (sort_desc (fun kv => us_total (snd kv))
                                          url_stats)) |}
  end.

Definition slow_line (st : LogAnalyzer) (r : SlowRequest) : SlowLine :=
  {| sl_time := strftime (s_timestamp r); sl_elapsed := s_elapsed r;
     sl_caller := s_caller r;
     sl_url := match dict_get (s_req_id r) (api_requests st) with
               | Some api_req => Some (a_url api_req)
               | None => None
               end |}.

Definition timeout_line (r : TimeoutRecord) : TimeoutLine :=
  {| tl_time := strftime (t_timestamp r); tl_url := t_url r;
     tl_elapsed := t_elapsed r |}.

(** [Counter(active_counts)], keys in the order of their first
    occurrence. *)
Fixpoint counter_add (k : Z) (c : list (Z * Z)) : list (Z * Z) :=
  match c with
  | [] => [(k, 1)]
  | (k', n) :: rest =>
      if k =? k' then (k', n + 1) :: rest else (k', n) :: counter_add k rest
  end.

Definition counter (l : list Z) : list (Z * Z) :=
  fold_left (fun c k => counter_add k c) l [].

Definition dist_line (kv : Z * Z) : DistLine :=
  {| dl_level := fst kv; dl_times := snd kv;
     dl_bar := Z.min 50 (snd kv / 10) |}.

Definition active_counts (st : LogAnalyzer) : list Z :=
  map a_active_count_start (dict_values (api_requests st)).

Definition concurrency_summary (st : LogAnalyzer)
  : option ConcurrencySummary :=
  match active_counts st with
  | [] => None
  | c :: cs =>
      Some {| conc_mean := (inject_Z (zsum (c :: cs))
                            / inject_Z (Z.of_nat (length (c :: cs))))%Q;
              conc_max := zmax_of c cs;
              conc_dist := map dist_line (sort_asc (counter (c :: cs))) |}
  end.

(** [slow_callers]: a [defaultdict(int)] over the callers of the slow
    records. *)
Fixpoint caller_add (k : string) (c : list (string * Z)) : list (string * Z) :=
  match c with
  | [] => [(k, 1)]
  | (k', n) :: rest =>
      if String.eqb k k' then (k', n + 1) :: rest
      else (k', n) :: caller_add k rest
  end.

(** [max(items, key=lambda x: x[1])]: the first item with the largest
    count. *)
Definition top_caller (x : string * Z) (l : list (string * Z)) : string * Z :=
  fold_left (fun best y => if snd best <? snd y then y else best) l x.

Definition findings (st : LogAnalyzer) : list finding :=
  let f1 := match timeouts st with
            | [] => []
            | _ => [FTimeouts (length (timeouts st))]
            end in
  let f2 := if 5 <? concurrent_peak st then [FPeak (concurrent_peak st)]
            else [] in
  let f3 := match api_elapsed st with
            | [] => []
            | e :: es => if Qltb 10 (max_of e es) then [FLongCall (max_of e es)]
                         else []
            end in
  let slow_callers :=
    fold_left (fun c r => caller_add (s_caller r) c) (slow_requests st) [] in
  let f4 := match slow_callers with
            | [] => []
            | x :: l => let top := top_caller x l in
                        [FSlowCaller (fst top) (snd top)]
            end in
  match f1 ++ f2 ++ f3 ++ f4 with
  | [] => [FNothingFound]
  | fs => fs
  end.

Definition generate_report (st : LogAnalyzer) : Report :=
  {| r_http_total := length (http_requests st);
     r_api_total := length (api_requests st);
     r_slow_total := length (slow_requests st);
     r_timeout_total := length (timeouts st);
     r_peak := concurrent_peak st;
     r_http := http_summary st;
     r_api := api_summary st;
     r_slow := map (slow_line st)
                   (firstn 20 (sort_desc s_elapsed (slow_requests st)));
     r_timeouts := map timeout_line (timeouts st);
     r_concurrency := concurrency_summary st;
     r_findings := findings st |}.

(** [main]: a fresh analyzer, the scan, the report; an exception of the scan
    ends the program before anything is printed. *)
Definition main (file_handle : list string) : result Report :=
  match analyze_file file_handle new_analyzer with
  | (Return _, st) => Return (generate_report st)
  | (Raise e, _) => Raise e
  end.

(** ** Reading a log without running the analyzer

    What the loop body sees in a line: its timestamp and the first pattern
    that matches with the groups of the match. *)
Definition recognize (line : string) : option (datetime * tag * list string) :=
  match parse_line line with
  | None => None
  | Some (ts, line) =>
      match first_match patterns line with
      | Some (t, m) => Some (ts, t, m)
      | None => None
      end
  end.

Definition recognized (line : string) : bool :=
  match recognize line with Some _ => true | None => false end.

(** The ids of the REQ_START lines and of the HTTP_START lines of a log, in
    the order of the lines. *)
Definition start_ids (log : list string) : list string :=
  flat_map (fun line => match recognize line with
                        | Some (_, REQ_START, m) => [group m 1]
                        | _ => []
                        end) log.

Definition http_start_ids (log : list string) : list string :=
  flat_map (fun line => match recognize line with
                        | Some (_, HTTP_START, m) => [group m 1]
                        | _ => []
                        end) log.

(** The entry a REQ_START line writes. *)
Definition entry_of_start (ts : datetime) (m : list string) : ApiRequest :=
  {| a_start := ts; a_method := group m 2; a_url := group m 3;
     a_caller := group m 4; a_active_count_start := int_of (group m 6);
     a_end := None; a_elapsed := None |}.



(** The keys of a dict after an assignment to [k]. *)
Definition add_key (ks : list string) (k : string) : list string :=
  if existsb (String.eqb k) ks then ks else ks ++ [k].

(** The distinct elements in the order of their first occurrence. *)
Definition distinct (ids : list string) : list string :=
  fold_left add_key ids [].

(** A run of the program on an analyzer that is already in state [st]. *)
Definition run_from (st : LogAnalyzer) (file_handle : list string)
  : result Report :=
  match analyze_file file_handle st with
  | (Return _, st') => Return (generate_report st')
  | (Raise e, _) => Raise e
  end.

(** The active counts of the REQ_START lines of a log, in the order of the
    lines. *)
Definition start_counts (log : list string) : list Z :=
  flat_map (fun line => match recognize line with
                        | Some (_, REQ_START, m) => [int_of (group m 6)]
                        | _ => []
                        end) log.

(** The number of the group that holds the elapsed time, for the patterns
    that have one. *)
Definition elapsed_group (t : tag) : option nat :=
  match t with
  | HTTP_END => Some 5%nat
  | REQ_END => Some 2%nat
  | REQ_SLOW => Some 4%nat
  | REQ_TIMEOUT => Some 4%nat
  | HTTP_START | REQ_START => None
  end.

(** Whether a character occurs in a string. *)
Fixpoint has_char (c : ascii) (s : string) : bool :=
  match s with
  | EmptyString => false
  | String c' s' => Ascii.eqb c c' || has_char c s'
  end.

(** Whether a line begins with a digit. *)
Definition starts_with_digit (line : string) : bool :=
  match line with
  | EmptyString => false
  | String c _ => is_digit c
  end.

Definition tag_eqb (a b : tag) : bool :=
  match a, b with
  | HTTP_START, HTTP_START | HTTP_END, HTTP_END | REQ_START, REQ_START
  | REQ_END, REQ_END | REQ_SLOW, REQ_SLOW | REQ_TIMEOUT, REQ_TIMEOUT => true
  | _, _ => false
  end.

(** Whether some line of the log is recognized with tag [t]. *)
Definition has_tag (t : tag) (log : list string) : bool :=
  existsb (fun line => match recognize line with
                       | Some (_, t', _) => tag_eqb t t'
                       | None => false
                       end) log.

(** The entry of a call once its REQ_END line has been read. *)
Definition ended (r : ApiRequest) (ts : datetime) (elapsed : Q) : ApiRequest :=
  {| a_start := a_start r; a_method := a_method r; a_url := a_url r;
     a_caller := a_caller r;
     a_active_count_start := a_active_count_start r;
     a_end := Some ts; a_elapsed := Some elapsed |}.

(** Every entry was admitted at a concurrency that the peak covers. *)
Definition below_peak (st : LogAnalyzer) : Prop :=
  List.Forall (fun kv => a_active_count_start (snd kv) <= concurrent_peak st)
         (api_requests st).

(** No entry has an elapsed time yet. *)
Definition all_unfinished (st : LogAnalyzer) : Prop :=
  List.Forall (fun kv => a_elapsed (snd kv) = None) (api_requests st) /\
  List.Forall (fun kv => h_elapsed (snd kv) = None) (http_requests st).

(** Whether all characters of a string are of a class. *)
Fixpoint all_chars (cls : ascii -> bool) (s : string) : bool :=
  match s with
  | EmptyString => true
  | String c s' => cls c && all_chars cls s'
  end.



End Analyzer.

(** * Test fixtures *)

Module Fixtures.

Import Store.

Definition cfg0 : db_cfg := DbCfg "127.0.0.1" 3306 "root" "" "falcon_portal".

Definition fresh_db : state := State cfg0 None [].

Definition gone_away : exn :=
  Exn OperationalError "(2006, 'MySQL server has gone away')".
Definition duplicate_entry : exn :=
  Exn IntegrityError "(1062, 'Duplicate entry')".
Definition invalid_sql : exn := Exn ValueError "Invalid SQL".
Definition refused : exn :=
  Exn OperationalError "(2003, 'Can not connect to MySQL server')".

(** A driver on which everything succeeds: connection 7, cursor 3. *)
Definition healthy : Driver := {|
  drv_connect := fun _ _ => Return 7%nat;
  drv_cursor := fun _ _ => Return (Some 3%nat);
  drv_conn_close := fun _ _ => Return tt;
  drv_commit := fun _ _ => Return tt;
  drv_rollback := fun _ _ => Return tt;
  drv_execute := fun _ _ _ => Return tt;
  drv_fetchall := fun _ _ => Return [["row1"]; ["row2"]];
  drv_cursor_close := fun _ _ => Return tt;
  drv_lastrowid := fun _ _ => 123;
  drv_rowcount := fun _ _ => 5;
  drv_time := fun t => (inject_Z (Z.of_nat (length t)) / 1000)%Q;
  drv_thread := "MainThread" |}.

(** A driver whose [execute] answers [first] the first time and returns
    afterwards. *)
Definition fails_once (first : exn) : Driver := {|
  drv_connect := drv_connect healthy;
  drv_cursor := drv_cursor healthy;
  drv_conn_close := drv_conn_close healthy;
  drv_commit := drv_commit healthy;
  drv_rollback := drv_rollback healthy;
  drv_execute := fun t _ _ => if (attempts t =? 0)%nat then Raise first
                              else Return tt;
  drv_fetchall := drv_fetchall healthy;
  drv_cursor_close := drv_cursor_close healthy;
  drv_lastrowid := drv_lastrowid healthy;
  drv_rowcount := drv_rowcount healthy;
  drv_time := drv_time healthy;
  drv_thread := drv_thread healthy |}.

(** A driver that never gets a connection. *)
Definition unreachable : Driver := {|
  drv_connect := fun _ _ => Raise refused;
  drv_cursor := drv_cursor healthy;
  drv_conn_close := drv_conn_close healthy;
  drv_commit := drv_commit healthy;
  drv_rollback := drv_rollback healthy;
  drv_execute := drv_execute healthy;
  drv_fetchall := drv_fetchall healthy;
  drv_cursor_close := drv_cursor_close healthy;
  drv_lastrowid := drv_lastrowid healthy;
  drv_rowcount := drv_rowcount healthy;
  drv_time := drv_time healthy;
  drv_thread := drv_thread healthy |}.

(** The HTTP side: a backend that answers 200, a clock that ticks with the
    trace, a request context with and without a token. *)
Definition backend_ok : Corelib.Env := {|
  Corelib.env_http := fun _ _ _ _ => Return {| Corelib.status_code := 200 |};
  Corelib.env_time :=
    fun t => (inject_Z (Z.of_nat (length t)) / 1000)%Q |}.

Definition view_stack : list Corelib.frame :=
  [ {| Corelib.filename := "/srv/dashboard/rrd/view/team.py";
       Corelib.lineno := 42; Corelib.name := "teams" |};
    {| Corelib.filename := "/srv/dashboard/rrd/corelib/__init__.py";
       Corelib.lineno := 41; Corelib.name := "auth_requests" |} ].

Definition ctx_without_token : Corelib.context := {|
  Corelib.g_user_token := None;
  Corelib.thread_name := "MainThread";
  Corelib.stack := view_stack |}.

Definition ctx_with_token : Corelib.context := {|
  Corelib.g_user_token :=
    Some {| Corelib.tok_name := "root"; Corelib.tok_sig := "s3cr3t" |};
  Corelib.thread_name := "MainThread";
  Corelib.stack := view_stack |}.

Definition no_kwargs : Corelib.kwargs :=
  {| Corelib.kw_url := None; Corelib.kw_headers := None |}.

Definition team_url : list string := ["http://127.0.0.1:8080/api/v1/team"].

Definition select1 : list string := ["SELECT 1"].

(** Log lines as the instrumentation writes them. *)
Definition nl : string := String (ascii_of_nat 10) EmptyString.

Definition start_line (clock id active_count : string) : string :=
  "2024-01-15 " ++ clock ++ " WARNING [REQ_START] id=" ++ id
  ++ " method=GET url=http://127.0.0.1:8080/api/v1/team"
  ++ " caller=view/team.py:42:teams thread=MainThread active_count="
  ++ active_count ++ nl.

Definition start1 : string := start_line "10:00:00" "1" "0".
Definition start2 : string := start_line "10:00:01" "2" "1".
Definition start3 : string := start_line "10:00:02" "3" "2".
Definition start1_again : string := start_line "10:00:05" "1" "4".

Definition noise : string := "Traceback (most recent call last):" ++ nl.

(** The timestamp of the sample lines at second [s] and the groups of the
    match of a sample REQ_START line. *)
Definition at_second (s : Z) : Analyzer.datetime :=
  {| Analyzer.year := 2024; Analyzer.month := 1; Analyzer.day := 15;
     Analyzer.hour := 10; Analyzer.minute := 0; Analyzer.second := s |}.

Definition start_groups (id active_count : string) : list string :=
  [id; "GET"; "http://127.0.0.1:8080/api/v1/team"; "view/team.py:42:teams";
   "MainThread"; active_count].

Definition three_starts : list string := [start1; noise; start2; start3].

Definition orphan_timeout : string :=
  "2024-01-15 10:00:03 ERROR [REQ_TIMEOUT] id=9 method=GET"
  ++ " url=http://127.0.0.1:8080/api/v1/graph elapsed=30.001s"
  ++ " caller=view/chart.py:7:chart error=timed_out" ++ nl.



(** The state in which the first attempt of [select1] on a fresh [DB] ends
    when the statement itself fails. *)
Definition after_failed_attempt : state :=
  State cfg0 (Some 7%nat)
        [EvExecute 3%nat select1; EvCursor 7%nat; EvConnect cfg0].

(** The same with the DB_ERROR record of [execute] on top. *)
Definition after_error (e : exn) : state :=
  logged (DB_ERROR "MainThread" "SELECT 1"
            (drv_time healthy (events after_failed_attempt)
             - drv_time healthy [])%Q
            (exn_msg e))
         after_failed_attempt.

Definition after_success : state :=
  State cfg0 (Some 7%nat)
        [EvExecute 3%nat select1; EvCursor 7%nat; EvConnect cfg0].

(** A driver whose commit loses the connection. *)
Definition commit_lost : Driver := {|
  drv_connect := drv_connect healthy;
  drv_cursor := drv_cursor healthy;
  drv_conn_close := drv_conn_close healthy;
  drv_commit := fun _ _ => Raise gone_away;
  drv_rollback := drv_rollback healthy;
  drv_execute := drv_execute healthy;
  drv_fetchall := drv_fetchall healthy;
  drv_cursor_close := drv_cursor_close healthy;
  drv_lastrowid := drv_lastrowid healthy;
  drv_rowcount := drv_rowcount healthy;
  drv_time := drv_time healthy;
  drv_thread := drv_thread healthy |}.

(** A statement of 60 characters. *)
Definition long_sql : string :=
  "SELECT id, name, creator FROM team WHERE name LIKE '%falcon%'".

(** A REQ_END line for the call of [start1], one with an elapsed text that
    is no number, and a REQ_START line written by a thread whose name has a
    space. *)
Definition end1 : string :=
  "2024-01-15 10:00:03 WARNING [REQ_END] id=1 elapsed=3.500s active_count=0"
  ++ nl.

Definition bad_end : string :=
  "2024-01-15 10:00:04 WARNING [REQ_END] id=9 elapsed=1.2.3s active_count=0"
  ++ nl.

Definition start_from_named_thread : string :=
  "2024-01-15 10:00:00 WARNING [REQ_START] id=1 method=GET"
  ++ " url=http://127.0.0.1:8080/api/v1/team caller=view/team.py:42:teams"
  ++ " thread=Thread-1 (process_request_thread) active_count=0" ++ nl.


End Fixtures.

(** * Properties of the data access layer *)

Local Open Scope list_scope.

Section StoreProperties.

Import Store.

Variable drv : Driver.

Ltac run_m :=
  unfold bind, ret, raise, try_except, try_finally, when_,
    emit, set_conn, get_self_conn, call, time, logged in *;
  cbn [fst snd config conn events] in *.

Ltac split_cases :=
  repeat match goal with
         | |- context [match ?x with _ => _ end] => destruct x eqn:?
         | H : context [match ?x with _ => _ end] |- _ => destruct x eqn:?
         end.

(** [execute] is its first attempt, handed to one of the two handlers when
    it raises. *)
Lemma execute_unfold (a : list string) (kw_cursor : option cursor_id)
    (s : state) :
  execute drv a kw_cursor s =
  let t0 := drv_time drv (events s) in
  match first_attempt drv a kw_cursor t0 s with
  | (Return v, s1) => (Return v, s1)
  | (Raise e, s1) =>
      if is_transient e then reconnect_handler drv a t0 e s1
      else error_handler drv a t0 e s1
  end.
Proof.
  unfold execute, time, bind, try_except, ret. cbv beta iota zeta.
  destruct (first_attempt drv a kw_cursor (drv_time drv (events s)) s)
    as [[v | e] s1]; [reflexivity |].
  destruct (is_transient e).
  - destruct (reconnect_handler _ _ _ _ _) as [[? | ?] ?]; reflexivity.
  - destruct (error_handler _ _ _ _ _) as [[? | ?] ?]; reflexivity.
Qed.

Lemma error_handler_raises (a : list string) (t0 : Q) (e : exn) (s : state) :
  error_handler drv a t0 e s =
  (Raise e,
   logged (DB_ERROR (drv_thread drv) (sql_preview a)
                    (drv_time drv (events s) - t0) (exn_msg e)) s).
Proof. reflexivity. Qed.

(** After the connection has been discarded [get_conn] can only connect
    anew: the handler is the sequence the specification describes. *)
Lemma reconnect_handler_spec (a : list string) (t0 : Q) (e : exn) (s : state) :
  reconnect_handler drv a t0 e s =
  reconnect_and_retry_spec drv a
    (logged (DB_RECONNECT (drv_thread drv) (sql_preview a)
                          (drv_time drv (events s) - t0) (exn_msg e)) s).
Proof.
  unfold reconnect_handler, reconnect_and_retry_spec, get_conn, conn_and_close.
  run_m. destruct (conn s) as [c |]; cbn.
  - destruct (drv_conn_close drv _ c); [| reflexivity].
    destruct (connect_db drv _ _) as [[c' | e'] s']; reflexivity.
  - destruct (connect_db drv _ _) as [[c' | e'] s']; reflexivity.
Qed.

(** A first attempt that returns has run the statement on the cursor it
    returns. *)
Lemma first_attempt_returns (a : list string) (kw_cursor : option cursor_id)
    (t0 : Q) (s s1 : state) (v : option cursor_id) :
  first_attempt drv a kw_cursor t0 s = (Return v, s1) ->
  exists k, v = Some k /\ completed drv k a (events s1).
Proof.
  unfold first_attempt, get_conn, connect_db, conn_cursor, cursor_execute,
    completed.
  run_m. intros H.
  split_cases; run_m; try discriminate;
    repeat match goal with
           | H : (_, _) = (_, _) |- _ => inversion H; clear H; subst
           end;
    repeat match goal with u : unit |- _ => destruct u end;
    cbn in *; eexists; (split; [reflexivity |]);
    eexists; (split; [eassumption |]); eauto 8.
Qed.

Lemma attempts_app (t1 t2 : trace) :
  attempts (t1 ++ t2) = (attempts t1 + attempts t2)%nat.
Proof. unfold attempts. now rewrite List.filter_app, length_app. Qed.

Lemma reconnects_app (t1 t2 : trace) :
  reconnects (t1 ++ t2) = (reconnects t1 + reconnects t2)%nat.
Proof. unfold reconnects. now rewrite List.filter_app, length_app. Qed.

Lemma db_errors_app (t1 t2 : trace) :
  db_errors (t1 ++ t2) = (db_errors t1 + db_errors t2)%nat.
Proof. unfold db_errors. now rewrite List.filter_app, length_app. Qed.

Ltac inv_pairs :=
  repeat match goal with
         | H : (_, _) = (_, _) |- _ => inversion H; clear H; subst
         | u : unit |- _ => destruct u
         end.

Ltac give_segment :=
  match goal with
  | |- exists new, ?t0 = new ++ ?t0 /\ _ => exists []
  | |- exists new, ?x1 :: ?t0 = new ++ ?t0 /\ _ => exists [x1]
  | |- exists new, ?x1 :: ?x2 :: ?t0 = new ++ ?t0 /\ _ => exists [x1; x2]
  | |- exists new, ?x1 :: ?x2 :: ?x3 :: ?t0 = new ++ ?t0 /\ _ =>
      exists [x1; x2; x3]
  | |- exists new, ?x1 :: ?x2 :: ?x3 :: ?x4 :: ?t0 = new ++ ?t0 /\ _ =>
      exists [x1; x2; x3; x4]
  | |- exists new, ?x1 :: ?x2 :: ?x3 :: ?x4 :: ?x5 :: ?t0 = new ++ ?t0 /\ _ =>
      exists [x1; x2; x3; x4; x5]
  end; (split; [reflexivity |]).

(** A first attempt that raises has made at most one statement execution
    and logged no reconnect or error. *)
Lemma first_attempt_raises (a : list string) (kw_cursor : option cursor_id)
    (t0 : Q) (s s1 : state) (e : exn) :
  first_attempt drv a kw_cursor t0 s = (Raise e, s1) ->
  config s1 = config s /\
  exists new, events s1 = new ++ events s /\ one_attempt new /\
    (forall k0 t, events s1 = EvExecute k0 a :: t ->
                  attempts new = 1%nat).
Proof.
  unfold first_attempt, get_conn, connect_db, conn_cursor, cursor_execute,
    one_attempt.
  run_m. intros H.
  split_cases; run_m; try discriminate; inv_pairs; cbn in *;
    (split; [reflexivity |]); give_segment;
    (split; [unfold attempts, reconnects, db_errors; cbn; repeat split; lia |]);
    intros k0 t Ht; try discriminate; try congruence; reflexivity.
Qed.

(** The retry sequence: what it leaves in the trace, whatever its
    outcome. *)
Lemma retry_segment (a : list string) (s2 s' : state)
    (r : result (option cursor_id)) :
  reconnect_and_retry_spec drv a s2 = (r, s') ->
  exists new, events s' = new ++ events s2 /\ one_attempt new.
Proof.
  unfold reconnect_and_retry_spec, conn_and_close, connect_db, conn_cursor,
    cursor_execute, one_attempt.
  run_m. intros H.
  split_cases; run_m; try discriminate; inv_pairs; cbn in *;
    give_segment; unfold attempts, reconnects, db_errors; cbn;
    repeat split; lia.
Qed.

Lemma retry_returns (a : list string) (s2 s' : state)
    (v : option cursor_id) :
  reconnect_and_retry_spec drv a s2 = (Return v, s') ->
  exists k c, v = Some k /\ conn s' = Some c /\
    events s' = EvExecute k a :: EvCursor c :: EvConnect (config s2)
                :: closed s2 ++ events s2 /\
    completed drv k a (events s').
Proof.
  unfold reconnect_and_retry_spec, conn_and_close, connect_db, conn_cursor,
    cursor_execute, completed, closed.
  run_m. intros H.
  split_cases; run_m; try discriminate; inv_pairs; cbn in *;
    do 2 eexists; repeat (split; [reflexivity |]);
    eexists; (split; [eassumption |]); left; reflexivity.
Qed.

Lemma counts_of_reconnect (th sql : string) (el : Q) (msg : string)
    (t : trace) :
  attempts (DB_RECONNECT th sql el msg :: t) = attempts t /\
  reconnects (DB_RECONNECT th sql el msg :: t) = S (reconnects t) /\
  db_errors (DB_RECONNECT th sql el msg :: t) = db_errors t.
Proof. repeat split; reflexivity. Qed.

Lemma attempts_closed (s : state) (t : trace) :
  attempts (closed s ++ t) = attempts t.
Proof. unfold closed. destruct (conn s); reflexivity. Qed.

(** C2.  When the first attempt of [execute] fails with an AttributeError or
    an OperationalError, [execute] logs DB_RECONNECT and is from there on
    exactly the sequence "close and discard the connection, connect anew,
    run the statement once, return the new cursor", with nothing caught:
    one DB_RECONNECT and no DB_ERROR record are added whatever the outcome;
    when the retry returns, the result is the cursor obtained from the new
    connection, the statement has completed on it, and the call made one
    statement execution more than the failed attempt (two in all when the
    first failure came from the statement itself); when the retry raises,
    [execute] raises that very exception. *)
Theorem execute_transient_reconnects_and_retries_once
    (a : list string) (kw_cursor : option cursor_id) (s s1 : state) (e : exn) :
  first_attempt drv a kw_cursor (drv_time drv (events s)) s = (Raise e, s1) ->
  is_transient e = true ->
  let s2 := logged (DB_RECONNECT (drv_thread drv) (sql_preview a)
                      (drv_time drv (events s1) - drv_time drv (events s))
                      (exn_msg e)) s1 in
  execute drv a kw_cursor s = reconnect_and_retry_spec drv a s2 /\
  forall r s', execute drv a kw_cursor s = (r, s') ->
    reconnects (events s') = S (reconnects (events s)) /\
    db_errors (events s') = db_errors (events s) /\
    (attempts (events s') <= attempts (events s) + 2)%nat /\
    match r with
    | Return v =>
        exists k c, v = Some k /\ conn s' = Some c /\
          events s' = EvExecute k a :: EvCursor c :: EvConnect (config s)
                      :: closed s1 ++ events s2 /\
          completed drv k a (events s') /\
          attempts (events s') = S (attempts (events s1)) /\
          (forall k0 t, events s1 = EvExecute k0 a :: t ->
                        attempts (events s') = (attempts (events s) + 2)%nat)
    | Raise e2 => reconnect_and_retry_spec drv a s2 = (Raise e2, s')
    end.
Proof.
  intros Hfirst Htrans s2.
  assert (Heq : execute drv a kw_cursor s = reconnect_and_retry_spec drv a s2).
  { rewrite execute_unfold. cbv zeta. rewrite Hfirst, Htrans.
    apply reconnect_handler_spec. }
  split; [exact Heq |].
  destruct (first_attempt_raises _ _ _ _ _ _ Hfirst)
    as (Hcfg & new1 & Hev1 & (Ha1 & Hr1 & Hd1) & Hexact).
  intros r s' Hrun. rewrite Heq in Hrun.
  destruct (retry_segment _ _ _ _ Hrun) as (new2 & Hev2 & Ha2 & Hr2 & Hd2).
  assert (Hs2 : events s2 = DB_RECONNECT (drv_thread drv) (sql_preview a)
                      (drv_time drv (events s1) - drv_time drv (events s))
                      (exn_msg e) :: events s1) by reflexivity.
  destruct (counts_of_reconnect (drv_thread drv) (sql_preview a)
              (drv_time drv (events s1) - drv_time drv (events s))
              (exn_msg e) (events s1)) as (Ca & Cr & Cd).
  repeat split.
  - rewrite Hev2, reconnects_app, Hs2, Cr, Hev1, reconnects_app. lia.
  - rewrite Hev2, db_errors_app, Hs2, Cd, Hev1, db_errors_app. lia.
  - rewrite Hev2, attempts_app, Hs2, Ca, Hev1, attempts_app. lia.
  - destruct r as [v | e2]; [| exact Hrun].
    destruct (retry_returns _ _ _ _ Hrun) as (k & c & Hv & Hc & Hev & Hdone).
    assert (Hatt : attempts (events s') = S (attempts (events s1))).
    { rewrite Hev. unfold attempts at 1. cbn [List.filter length].
      fold (attempts (closed s2 ++ events s2)).
      now rewrite attempts_closed, Hs2, Ca. }
    exists k, c. repeat split; try assumption.
    + rewrite Hev. unfold s2 at 1, logged. cbn [config]. now rewrite Hcfg.
    + intros k0 t Ht. rewrite Hatt, Hev1, attempts_app, (Hexact k0 t Ht). lia.
Qed.

(** Whenever [execute] returns, it returns a cursor on which the statement
    has just completed. *)
Lemma execute_returns_completed (a : list string)
    (kw_cursor : option cursor_id) (s s' : state) (v : option cursor_id) :
  execute drv a kw_cursor s = (Return v, s') ->
  exists k, v = Some k /\ completed drv k a (events s').
Proof.
  rewrite execute_unfold. cbv zeta.
  destruct (first_attempt drv a kw_cursor (drv_time drv (events s)) s)
    as [[v1 | e] s1] eqn:Hfirst.
  - intros H. inversion H; subst. eapply first_attempt_returns; eassumption.
  - destruct (is_transient e).
    + rewrite reconnect_handler_spec. intros H.
      destruct (retry_returns _ _ _ _ H) as (k & c & Hv & _ & _ & Hdone).
      eauto.
    + rewrite error_handler_raises. discriminate.
Qed.

(** C3.  [query_all] against the outcome of its inner [execute]: when
    [execute] raises, [query_all] raises the same exception from the same
    state, so that no fetchall, no close and no attribute access on the
    unset cursor took place; when [execute] returns, it returned a cursor on
    which the statement completed, fetchall is called on that cursor and the
    cursor is closed. *)
Theorem query_all_never_reads_an_unset_cursor
    (a : list string) (kw_cursor : option cursor_id) (s : state) :
  match execute drv a kw_cursor s with
  | (Raise e, s1) => query_all drv a kw_cursor s = (Raise e, s1)
  | (Return v, s1) =>
      exists k, v = Some k /\ completed drv k a (events s1) /\
        query_all drv a kw_cursor s =
        (match drv_cursor_close drv (EvFetchall k :: events s1) k with
         | Return _ => drv_fetchall drv (events s1) k
         | Raise e => Raise e
         end,
         State (config s1) (conn s1)
               (EvCursorClose k :: EvFetchall k :: events s1))
  end.
Proof.
  unfold query_all.
  destruct (execute drv a kw_cursor s) as [[v | e] s1] eqn:Hexec.
  - destruct (execute_returns_completed _ _ _ _ _ Hexec) as (k & -> & Hdone).
    exists k. repeat split; [assumption |].
    unfold try_finally, cursor_fetchall, cursor_and_close, call.
    cbn [fst snd config conn events].
    destruct (drv_cursor_close drv _ k); reflexivity.
  - reflexivity.
Qed.

(** C4.  An exception of the first attempt that is neither an
    AttributeError nor an OperationalError leaves [execute] unchanged, after
    one DB_ERROR record with its text; and whenever [execute] returns, the
    value is a cursor (never [None]) on which the statement has just run to
    completion. *)
Theorem execute_propagates_and_never_returns_a_sentinel
    (a : list string) (kw_cursor : option cursor_id) (s : state) :
  (forall e s1,
      first_attempt drv a kw_cursor (drv_time drv (events s)) s
      = (Raise e, s1) ->
      is_transient e = false ->
      execute drv a kw_cursor s =
      (Raise e,
       logged (DB_ERROR (drv_thread drv) (sql_preview a)
                 (drv_time drv (events s1) - drv_time drv (events s))
                 (exn_msg e)) s1)) /\
  (forall v s',
      execute drv a kw_cursor s = (Return v, s') ->
      exists k, v = Some k /\ completed drv k a (events s')).
Proof.
  split.
  - intros e s1 Hfirst Hclass. rewrite execute_unfold. cbv zeta.
    rewrite Hfirst, Hclass. apply error_handler_raises.
  - intros v s'. apply execute_returns_completed.
Qed.

(** What [insert] and [update] do once [execute] has raised: only the
    [except IntegrityError] clause and a [finally] that has no cursor to
    close. *)
Lemma insert_after_raise (a : list string) (kw_cursor : option cursor_id)
    (s s1 : state) (e : exn) :
  execute drv a kw_cursor s = (Raise e, s1) ->
  insert drv a kw_cursor s =
  (if is_integrity e then (rollback drv ;;; ret None) s1 else (Raise e, s1)) /\
  update drv a kw_cursor s =
  (if is_integrity e then (rollback drv ;;; ret None) s1 else (Raise e, s1)).
Proof.
  intros Hexec. unfold insert, update. rewrite Hexec.
  unfold try_finally, try_except, raise, cursor_and_close, ret.
  destruct (is_integrity e).
  - split; destruct ((rollback drv ;;; (fun s0 => (Return None, s0))) s1)
      as [[? | ?] ?]; reflexivity.
  - split; reflexivity.
Qed.

(** C5.  An IntegrityError is not caught by [execute] (it is logged as
    DB_ERROR and raised again) nor by [query_all], [query_one] and
    [query_column]; when it comes out of [execute] inside [insert] or
    [update], these run [rollback] and return [None]: with a live
    connection whose rollback returns, the result is [None] after exactly
    that rollback. *)
Theorem integrity_error_is_swallowed_by_insert_and_update_only
    (a : list string) (kw_cursor : option cursor_id) (s s1 : state) (e : exn) :
  is_integrity e = true ->
  (first_attempt drv a kw_cursor (drv_time drv (events s)) s = (Raise e, s1) ->
   execute drv a kw_cursor s =
   (Raise e,
    logged (DB_ERROR (drv_thread drv) (sql_preview a)
              (drv_time drv (events s1) - drv_time drv (events s))
              (exn_msg e)) s1)) /\
  (execute drv a kw_cursor s = (Raise e, s1) ->
   insert drv a kw_cursor s = (rollback drv ;;; ret None) s1 /\
   update drv a kw_cursor s = (rollback drv ;;; ret None) s1 /\
   (forall c, conn s1 = Some c ->
              drv_rollback drv (events s1) c = Return tt ->
              insert drv a kw_cursor s = (Return None, logged (EvRollback c) s1) /\
              update drv a kw_cursor s = (Return None, logged (EvRollback c) s1)) /\
   query_all drv a kw_cursor s = (Raise e, s1) /\
   query_one drv a kw_cursor s = (Raise e, s1) /\
   query_column drv a kw_cursor s = (Raise e, s1)).
Proof.
  intros Hint. split.
  - intros Hfirst. rewrite execute_unfold. cbv zeta. rewrite Hfirst.
    assert (Hnt : is_transient e = false).
    { unfold is_integrity in Hint. unfold is_transient.
      destruct (exn_cls e); congruence. }
    rewrite Hnt. apply error_handler_raises.
  - intros Hexec.
    destruct (insert_after_raise _ _ _ _ _ Hexec) as (Hi & Hu).
    rewrite Hint in Hi, Hu.
    assert (Hq : query_all drv a kw_cursor s = (Raise e, s1)).
    { unfold query_all. rewrite Hexec. reflexivity. }
    assert (Hr : forall c, conn s1 = Some c ->
                 drv_rollback drv (events s1) c = Return tt ->
                 (rollback drv ;;; ret None) s1
                 = (Return (@None Z), logged (EvRollback c) s1)).
    { intros c Hc Hok.
      unfold rollback, bind, get_self_conn, try_except, call, ret.
      rewrite Hc, Hok. reflexivity. }
    repeat split; try assumption.
    + rewrite Hi. now apply Hr.
    + rewrite Hu. now apply Hr.
    + unfold query_one, bind. now rewrite Hq.
    + unfold query_column, bind. now rewrite Hq.
Qed.

(** C10.  With a driver that never gets a connection and a [DB] that has
    none: [connect_db] swallows the connection error, logs it and returns
    [None]; [get_conn] stores and returns [None]; [execute] fails first with
    the attribute error of [None.cursor()], which is taken for transient
    (DB_RECONNECT carries its text), connects once more in vain and raises
    the attribute error of the retry.  The connection error shows only in
    the two critical log records. *)
Theorem unreachable_database_surfaces_as_attribute_error
    (a : list string) (s : state) (down : trace -> exn) :
  (forall t cfg, drv_connect drv t cfg = Raise (down t)) ->
  conn s = None ->
  let critical t := LogCritical ("connect db: " ++ exn_msg (down t))%string in
  let t1 := critical (events s) :: EvConnect (config s) :: events s in
  let t2 := DB_RECONNECT (drv_thread drv) (sql_preview a)
              (drv_time drv t1 - drv_time drv (events s))
              (exn_msg (none_attr "cursor")) :: t1 in
  let t3 := critical t2 :: EvConnect (config s) :: t2 in
  connect_db drv (config s) s = (Return None, State (config s) None t1) /\
  get_conn drv s = (Return None, State (config s) None t1) /\
  first_attempt drv a None (drv_time drv (events s)) s
  = (Raise (none_attr "cursor"), State (config s) None t1) /\
  is_transient (none_attr "cursor") = true /\
  execute drv a None s
  = (Raise (none_attr "cursor"), State (config s) None t3).
Proof.
  intros Hdown Hconn critical t1 t2 t3.
  assert (Hc : forall s0, conn s0 = None ->
             connect_db drv (config s0) s0
             = (Return None,
                State (config s0) None
                      (critical (events s0) :: EvConnect (config s0)
                                :: events s0))).
  { intros s0 H0. unfold connect_db, try_except, bind, call, emit, ret.
    cbn [fst snd config conn events]. rewrite Hdown, H0. reflexivity. }
  assert (Hg : get_conn drv s = (Return None, State (config s) None t1)).
  { unfold get_conn, bind, get_self_conn, set_conn. rewrite Hconn.
    rewrite (Hc s Hconn). reflexivity. }
  assert (Hf : first_attempt drv a None (drv_time drv (events s)) s
               = (Raise (none_attr "cursor"), State (config s) None t1)).
  { unfold first_attempt, bind at 1. unfold bind at 1. rewrite Hg.
    reflexivity. }
  repeat split; try assumption.
  - apply Hc, Hconn.
  - rewrite execute_unfold. cbv zeta. rewrite Hf.
    change (is_transient (none_attr "cursor")) with true. cbv iota.
    rewrite reconnect_handler_spec.
    unfold reconnect_and_retry_spec, conn_and_close, bind, get_self_conn,
      set_conn, logged, ret.
    cbn [fst snd config conn events].
    pose proof (Hc (State (config s) None t2) eq_refl) as Hc2.
    cbn [config conn events] in Hc2. unfold t2 in Hc2. rewrite Hc2.
    reflexivity.
Qed.

End StoreProperties.

Section StoreWitnesses.

Import Store Fixtures.

(** The scenario of the repository's retry test: the statement fails once
    with "server has gone away", [execute] returns the cursor after two
    statement executions and one DB_RECONNECT record. *)
Example retry_after_gone_away :
  let '(r, s') := execute (fails_once gone_away) select1 None fresh_db in
  r = Return (Some 3%nat) /\ attempts (events s') = 2%nat /\
  reconnects (events s') = 1%nat /\ db_errors (events s') = 0%nat.
Proof. vm_compute. repeat split. Qed.

Lemma execute_transient_witness :
  first_attempt (fails_once gone_away) select1 None
    (drv_time (fails_once gone_away) (events fresh_db)) fresh_db
  = (Raise gone_away, after_failed_attempt) /\
  is_transient gone_away = true /\
  execute (fails_once gone_away) select1 None fresh_db
  = reconnect_and_retry_spec (fails_once gone_away) select1
      (logged (DB_RECONNECT "MainThread" "SELECT 1"
                 (drv_time (fails_once gone_away) (events after_failed_attempt)
                  - drv_time (fails_once gone_away) (events fresh_db))
                 (exn_msg gone_away)) after_failed_attempt).
Proof.
  assert (H1 : first_attempt (fails_once gone_away) select1 None
                 (drv_time (fails_once gone_away) (events fresh_db)) fresh_db
               = (Raise gone_away, after_failed_attempt))
    by (vm_compute; reflexivity).
  split; [exact H1 |]. split; [reflexivity |].
  exact (proj1 (execute_transient_reconnects_and_retries_once
                  (fails_once gone_away) select1 None fresh_db
                  after_failed_attempt gone_away H1 eq_refl)).
Defined.

Lemma execute_gate_witness :
  (first_attempt (fails_once invalid_sql) select1 None
     (drv_time (fails_once invalid_sql) (events fresh_db)) fresh_db
   = (Raise invalid_sql, after_failed_attempt) /\
   is_transient invalid_sql = false /\
   execute (fails_once invalid_sql) select1 None fresh_db
   = (Raise invalid_sql,
      logged (DB_ERROR "MainThread" "SELECT 1"
                (drv_time (fails_once invalid_sql) (events after_failed_attempt)
                 - drv_time (fails_once invalid_sql) (events fresh_db))
                (exn_msg invalid_sql)) after_failed_attempt)) /\
  (execute healthy select1 None fresh_db = (Return (Some 3%nat), after_success) /\
   exists k, Some 3%nat = Some k /\
             completed healthy k select1 (events after_success)).
Proof.
  assert (H1 : first_attempt (fails_once invalid_sql) select1 None
                 (drv_time (fails_once invalid_sql) (events fresh_db)) fresh_db
               = (Raise invalid_sql, after_failed_attempt))
    by (vm_compute; reflexivity).
  assert (H2 : execute healthy select1 None fresh_db
               = (Return (Some 3%nat), after_success))
    by (vm_compute; reflexivity).
  split.
  - split; [exact H1 |]. split; [reflexivity |].
    exact (proj1 (execute_propagates_and_never_returns_a_sentinel
                    (fails_once invalid_sql) select1 None fresh_db)
                 invalid_sql after_failed_attempt H1 eq_refl).
  - split; [exact H2 |].
    exact (proj2 (execute_propagates_and_never_returns_a_sentinel
                    healthy select1 None fresh_db)
                 (Some 3%nat) after_success H2).
Defined.

Lemma integrity_error_witness :
  is_integrity duplicate_entry = true /\
  (first_attempt (fails_once duplicate_entry) select1 None
     (drv_time (fails_once duplicate_entry) (events fresh_db)) fresh_db
   = (Raise duplicate_entry, after_failed_attempt) /\
   execute (fails_once duplicate_entry) select1 None fresh_db
   = (Raise duplicate_entry, after_error duplicate_entry)) /\
  insert (fails_once duplicate_entry) select1 None fresh_db
  = (Return None, logged (EvRollback 7%nat) (after_error duplicate_entry)) /\
  update (fails_once duplicate_entry) select1 None fresh_db
  = (Return None, logged (EvRollback 7%nat) (after_error duplicate_entry)) /\
  query_all (fails_once duplicate_entry) select1 None fresh_db
  = (Raise duplicate_entry, after_error duplicate_entry).
Proof.
  assert (H1 : first_attempt (fails_once duplicate_entry) select1 None
                 (drv_time (fails_once duplicate_entry) (events fresh_db))
                 fresh_db
               = (Raise duplicate_entry, after_failed_attempt))
    by (vm_compute; reflexivity).
  pose proof (proj1 (integrity_error_is_swallowed_by_insert_and_update_only
                       (fails_once duplicate_entry) select1 None fresh_db
                       after_failed_attempt duplicate_entry eq_refl) H1) as H2.
  assert (H3 : execute (fails_once duplicate_entry) select1 None fresh_db
               = (Raise duplicate_entry, after_error duplicate_entry))
    by (rewrite H2; vm_compute; reflexivity).
  destruct (proj2 (integrity_error_is_swallowed_by_insert_and_update_only
                     (fails_once duplicate_entry) select1 None fresh_db
                     (after_error duplicate_entry) duplicate_entry eq_refl) H3)
    as (_ & _ & Hroll & Hq & _).
  destruct (Hroll 7%nat eq_refl eq_refl) as (Hi & Hu).
  repeat split; assumption.
Defined.

Lemma unreachable_database_witness :
  (forall t cfg, drv_connect unreachable t cfg = Raise refused) /\
  conn fresh_db = None /\
  exists s', execute unreachable select1 None fresh_db
             = (Raise (none_attr "cursor"), s') /\ conn s' = None.
Proof.
  split; [reflexivity |]. split; [reflexivity |].
  eexists. split.
  - exact (proj2 (proj2 (proj2 (proj2
             (unreachable_database_surfaces_as_attribute_error
                unreachable select1 fresh_db (fun _ => refused)
                (fun _ _ => eq_refl) eq_refl))))).
  - reflexivity.
Defined.

End StoreWitnesses.

(** * Properties of the outbound call tracker *)

Section CorelibProperties.

Import Corelib.

Variable env : Env.

(** Admission: the next id, the record stored under it, REQ_START with the
    size of the registry before the insertion. *)
Lemma admit_call_registers (ctx : context) (method : string)
    (args : list string) (kw : kwargs) (s : state) :
  exists l r,
    admit_call env ctx method args kw s =
    (Return l,
     State (_request_counter s + 1)
           (<[request_id l := r]> (_active_requests s))
           (REQ_START (request_id l) method (url l) (caller l)
                      (thread_name ctx) (size (_active_requests s))
            :: events s)) /\
    request_id l = _request_counter s + 1.
Proof.
  unfold admit_call, bind, next_request_id, time, register, emit, ret.
  cbn [fst snd _request_counter _active_requests events].
  exists {| request_id := _request_counter s + 1;
            caller := find_caller (stack ctx);
            start_time := env_time env (events s);
            url := url_of args kw |},
         {| cr_method := method; cr_url := url_of args kw;
            cr_start := env_time env (events s);
            cr_caller := find_caller (stack ctx);
            cr_thread := thread_name ctx |}.
  split; reflexivity.
Qed.

Lemma unregister_deletes (id : Z) (s : state) :
  unregister id s =
  (Return (size (delete id (_active_requests s))),
   State (_request_counter s) (delete id (_active_requests s)) (events s)).
Proof.
  unfold unregister. destruct (_active_requests s !! id) eqn:Hl.
  - reflexivity.
  - now rewrite (delete_id _ _ Hl).
Qed.

Lemma keeps_bind {A B} (m : M state A) (k : A -> M state B) :
  keeps_registry m -> (forall a, keeps_registry (k a)) ->
  keeps_registry (bind m k).
Proof.
  intros Hm Hk s r s'. unfold bind.
  destruct (m s) as [[a | e] s1] eqn:Hms; intros H.
  - rewrite (Hk a _ _ _ H). eapply Hm; eassumption.
  - inversion H; subst. eapply Hm; eassumption.
Qed.

Lemma keeps_try_except {A} (m : M state A) (h : exn -> option (M state A)) :
  keeps_registry m -> (forall e k, h e = Some k -> keeps_registry k) ->
  keeps_registry (try_except m h).
Proof.
  intros Hm Hh s r s'. unfold try_except.
  destruct (m s) as [[a | e] s1] eqn:Hms; intros H.
  - inversion H; subst. eapply Hm; eassumption.
  - destruct (h e) as [k |] eqn:Hk.
    + rewrite (Hh e k Hk _ _ _ H). eapply Hm; eassumption.
    + inversion H; subst. eapply Hm; eassumption.
Qed.

Lemma keeps_ret {A} (a : A) : keeps_registry (ret a).
Proof. intros s r s' H. now inversion H. Qed.

Lemma keeps_raise {A} (e : exn) : keeps_registry (@raise state A e).
Proof. intros s r s' H. now inversion H. Qed.

Lemma keeps_emit (ev : event) : keeps_registry (emit ev).
Proof. intros s r s' H. now inversion H. Qed.

Lemma keeps_time : keeps_registry (time env).
Proof. intros s r s' H. now inversion H. Qed.

Lemma keeps_when (b : bool) (m : M state unit) :
  keeps_registry m -> keeps_registry (when_ b m).
Proof. destruct b; [trivial | intros _; apply keeps_ret]. Qed.

Lemma keeps_perform (method : string) (args : list string) (hs : headers)
    (l : locals) :
  keeps_registry (perform env method args hs l).
Proof.
  unfold perform.
  apply keeps_bind.
  - destruct (_ || _).
    + intros s r s' H. now inversion H.
    + apply keeps_raise.
  - intros resp. apply keeps_bind; [apply keeps_time |]. intros now.
    apply keeps_bind; [apply keeps_emit |]. intros _.
    apply keeps_bind; [apply keeps_when, keeps_emit |]. intros _.
    apply keeps_ret.
Qed.

Lemma keeps_on_error (method : string) (l : locals) (e : exn) :
  keeps_registry (on_error env method l e).
Proof.
  unfold on_error.
  apply keeps_bind; [apply keeps_time |]. intros now.
  apply keeps_bind; [apply keeps_emit |]. intros _. apply keeps_raise.
Qed.

(** With a token, whatever the method and the outcome of the network call,
    the call ends with its record removed and REQ_END as the last event,
    carrying the size of the registry after the removal. *)
Lemma complete_call_cleans_up (ctx : context) (method : string)
    (args : list string) (kw : kwargs) (l : locals) (s : state) (tok : token) :
  g_user_token ctx = Some tok ->
  exists r s' elapsed t,
    complete_call env ctx method args kw l s = (r, s') /\
    _active_requests s' = delete (request_id l) (_active_requests s) /\
    events s' = REQ_END (request_id l) elapsed (size (_active_requests s'))
                :: t.
Proof.
  intros Htok. unfold complete_call. rewrite Htok.
  unfold try_finally.
  destruct (try_except _ _ s) as [r s1] eqn:Hbody.
  assert (Hreg : _active_requests s1 = _active_requests s).
  { eapply keeps_try_except; [apply keeps_perform | | exact Hbody].
    intros e k Hk. inversion Hk; subst. apply keeps_on_error. }
  unfold cleanup, bind. rewrite unregister_deletes.
  unfold time, emit. cbn [fst snd _request_counter _active_requests events].
  rewrite Hreg. do 4 eexists. repeat split; reflexivity.
Qed.

(** Without a token the call is admitted and then raises before the guarded
    block is entered: the record stays in the registry and no REQ_END is
    written. *)
Lemma complete_call_without_token (ctx : context) (method : string)
    (args : list string) (kw : kwargs) (l : locals) (s : state) :
  g_user_token ctx = None ->
  complete_call env ctx method args kw l s =
  (Raise (Exn PlainException "no api token"),
   State (_request_counter s) (_active_requests s)
         (REQ_ERROR (request_id l) "no_api_token" :: events s)).
Proof. intros Htok. unfold complete_call. now rewrite Htok. Qed.

Lemma auth_requests_without_token (ctx : context) (method : string)
    (args : list string) (kw : kwargs) (s : state) :
  g_user_token ctx = None ->
  exists s',
    auth_requests env ctx method args kw s =
    (Raise (Exn PlainException "no api token"), s') /\
    is_Some (_active_requests s' !! (_request_counter s + 1)) /\
    has_req_end (_request_counter s + 1) (events s')
    = has_req_end (_request_counter s + 1) (events s).
Proof.
  intros Htok. unfold auth_requests, bind.
  destruct (admit_call_registers ctx method args kw s) as (l & r & Hadm & Hid).
  rewrite Hadm, (complete_call_without_token _ _ _ _ _ _ Htok).
  eexists. split; [reflexivity |].
  cbn [_active_requests events]. split.
  - rewrite <- Hid, lookup_insert_eq. eauto.
  - reflexivity.
Qed.

(** With a token the whole call gives the registry back as it found it
    (the new id is not in use) and writes REQ_END for its id. *)
Lemma auth_requests_with_token (ctx : context) (method : string)
    (args : list string) (kw : kwargs) (s : state) (tok : token) :
  g_user_token ctx = Some tok ->
  _active_requests s !! (_request_counter s + 1) = None ->
  exists r s',
    auth_requests env ctx method args kw s = (r, s') /\
    _active_requests s' = _active_requests s /\
    has_req_end (_request_counter s + 1) (events s') = true.
Proof.
  intros Htok Hfresh. unfold auth_requests, bind.
  destruct (admit_call_registers ctx method args kw s) as (l & r & Hadm & Hid).
  rewrite Hadm.
  destruct (complete_call_cleans_up ctx method args kw l
              (State (_request_counter s + 1)
                     (<[request_id l := r]> (_active_requests s))
                     (REQ_START (request_id l) method (url l) (caller l)
                                (thread_name ctx) (size (_active_requests s))
                      :: events s)) tok Htok)
    as (r' & s' & el & t & Hc & Hreg & Hev).
  rewrite Hc. exists r', s'. split; [reflexivity |]. split.
  - rewrite Hreg. cbn [_active_requests]. rewrite Hid.
    now apply delete_insert_id.
  - rewrite Hev, <- Hid. cbn [has_req_end existsb].
    now rewrite Z.eqb_refl.
Qed.

(** Without a token the registry has grown by one entry when the call is
    over. *)
Lemma auth_requests_without_token_grows (ctx : context) (method : string)
    (args : list string) (kw : kwargs) (s : state) :
  g_user_token ctx = None ->
  _active_requests s !! (_request_counter s + 1) = None ->
  size (_active_requests
          (snd (auth_requests env ctx method args kw s)))
  = S (size (_active_requests s)).
Proof.
  intros Htok Hfresh. unfold auth_requests, bind.
  destruct (admit_call_registers ctx method args kw s) as (l & r & Hadm & Hid).
  rewrite Hadm, (complete_call_without_token _ _ _ _ _ _ Htok).
  cbn [snd _active_requests]. rewrite Hid.
  now apply map_size_insert_None.
Qed.

End CorelibProperties.

(** C1.  A call without an API token, made on the freshly loaded module
    against a healthy backend: it raises "no api token", and after it has
    terminated its record is still registered under id 1 (the registry has
    size 1 with no call in flight) and the trace holds no REQ_END for id 1.
    The same call with a token leaves the registry empty and ends with
    REQ_END. *)
Theorem auth_requests_without_token_leaks_its_record :
  (let '(r, s') :=
     Corelib.auth_requests Fixtures.backend_ok Fixtures.ctx_without_token
       "GET" Fixtures.team_url Fixtures.no_kwargs Corelib.initial in
   r = Raise (Exn PlainException "no api token") /\
   size (Corelib._active_requests s') = 1%nat /\
   is_Some (Corelib._active_requests s' !! 1) /\
   Corelib.has_req_end 1 (Corelib.events s') = false) /\
  (let '(r, s') :=
     Corelib.auth_requests Fixtures.backend_ok Fixtures.ctx_with_token
       "GET" Fixtures.team_url Fixtures.no_kwargs Corelib.initial in
   r = Return {| Corelib.status_code := 200 |} /\
   size (Corelib._active_requests s') = 0%nat /\
   Corelib.has_req_end 1 (Corelib.events s') = true).
Proof.
  split.
  - vm_compute. repeat split. eexists. reflexivity.
  - vm_compute. repeat split.
Qed.

(** * Properties of the log correlation engine *)

Section AnalyzerProperties.

Import Analyzer.

(** ** Dicts *)

Lemma dict_keys_set {V} (k : string) (v : V) (dct : dict V) :
  dict_keys (dict_set k v dct) = add_key (dict_keys dct) k.
Proof.
  unfold add_key. induction dct as [| [k' v'] rest IH]; [reflexivity |].
  cbn [dict_set dict_keys map fst existsb].
  destruct (String.eqb k k') eqn:E.
  - apply String.eqb_eq in E. subst. reflexivity.
  - cbn [orb map fst]. fold (dict_keys (dict_set k v rest)).
    fold (dict_keys rest). rewrite IH.
    destruct (existsb (String.eqb k) (dict_keys rest)); reflexivity.
Qed.

Lemma dict_get_set_eq {V} (k : string) (v : V) (dct : dict V) :
  dict_get k (dict_set k v dct) = Some v.
Proof.
  induction dct as [| [k' v'] rest IH]; cbn.
  - now rewrite String.eqb_refl.
  - destruct (String.eqb k k') eqn:E; cbn.
    + now rewrite String.eqb_refl.
    + now rewrite E.
Qed.

Lemma dict_get_keys {V} (k : string) (dct : dict V) :
  existsb (String.eqb k) (dict_keys dct) = dict_mem k dct.
Proof.
  unfold dict_mem. induction dct as [| [k' v'] rest IH]; [reflexivity |].
  cbn. destruct (String.eqb k k'); [reflexivity | exact IH].
Qed.


Lemma add_key_present (ks : list string) (k : string) :
  existsb (String.eqb k) ks = true -> add_key ks k = ks.
Proof. unfold add_key. now intros ->. Qed.

Lemma dict_length_keys {V} (dct : dict V) :
  length dct = length (dict_keys dct).
Proof. unfold dict_keys. now rewrite length_map. Qed.

(** ** Distinct ids *)

Lemma existsb_eqb_In (k : string) (ks : list string) :
  existsb (String.eqb k) ks = true <-> In k ks.
Proof.
  rewrite existsb_exists. split.
  - intros (x & Hx & E). apply String.eqb_eq in E. now subst.
  - intros H. exists k. split; [assumption | apply String.eqb_refl].
Qed.

Lemma add_key_spec (ks : list string) (k x : string) :
  In x (add_key ks k) <-> In x ks \/ x = k.
Proof.
  unfold add_key. destruct (existsb (String.eqb k) ks) eqn:E.
  - apply existsb_eqb_In in E. split; [tauto |].
    intros [H | ->]; assumption.
  - rewrite in_app_iff. cbn. split; intros H; intuition (subst; auto).
Qed.

Lemma add_key_NoDup (ks : list string) (k : string) :
  List.NoDup ks -> List.NoDup (add_key ks k).
Proof.
  intros Hnd. unfold add_key.
  destruct (existsb (String.eqb k) ks) eqn:E; [assumption |].
  apply List.NoDup_app; [assumption | |].
  - constructor; [intros [] | constructor].
  - intros x Hx [<- | []].
    apply existsb_eqb_In in Hx. congruence.
Qed.

Lemma fold_add_key_spec (ids ks : list string) (x : string) :
  In x (fold_left add_key ids ks) <-> In x ks \/ In x ids.
Proof.
  revert ks. induction ids as [| i ids IH]; intros ks; cbn.
  - tauto.
  - rewrite IH, add_key_spec. split; intros H; intuition (subst; auto).
Qed.

Lemma fold_add_key_NoDup (ids ks : list string) :
  List.NoDup ks -> List.NoDup (fold_left add_key ids ks).
Proof.
  revert ks. induction ids as [| i ids IH]; intros ks H; cbn;
    [assumption | apply IH, add_key_NoDup, H].
Qed.

(** [distinct] keeps one copy of each element: it has as many elements as
    the list without duplicates of the standard library. *)
Lemma distinct_length (ids : list string) :
  length (distinct ids) = length (nodup string_dec ids).
Proof.
  apply Permutation_length, Permutation.NoDup_Permutation.
  - apply fold_add_key_NoDup. constructor.
  - apply NoDup_nodup.
  - intros x. unfold distinct. rewrite fold_add_key_spec, nodup_In.
    cbn. tauto.
Qed.

(** ** The scan *)

Lemma analyze_line_recognize (line : string) :
  analyze_line line =
  match recognize line with
  | Some (ts, t, m) => handler t m ts
  | None => ret tt
  end.
Proof.
  unfold analyze_line, recognize.
  destruct (parse_line line) as [[ts l] |]; [| reflexivity].
  destruct (first_match patterns l) as [[t m] |]; reflexivity.
Qed.

Lemma analyze_file_app (l1 l2 : list string) (st : LogAnalyzer) :
  analyze_file (l1 ++ l2) st =
  match analyze_file l1 st with
  | (Return _, st1) => analyze_file l2 st1
  | (Raise e, st1) => (Raise e, st1)
  end.
Proof.
  revert st. induction l1 as [| line l1 IH]; intros st; [reflexivity |].
  cbn [app analyze_file]. unfold bind.
  destruct (analyze_line line st) as [[[] | e] st1]; [apply IH | reflexivity].
Qed.

(** A line that is not recognized leaves the analyzer as it is. *)
Lemma analyze_line_unrecognized (line : string) (st : LogAnalyzer) :
  recognized line = false -> analyze_line line st = (Return tt, st).
Proof.
  unfold recognized. rewrite analyze_line_recognize.
  destruct (recognize line); [discriminate | reflexivity].
Qed.

Lemma analyze_file_recognized (log : list string) (st : LogAnalyzer) :
  analyze_file log st = analyze_file (List.filter recognized log) st.
Proof.
  revert st. induction log as [| line log IH]; intros st; [reflexivity |].
  cbn [List.filter analyze_file]. destruct (recognized line) eqn:E.
  - cbn [analyze_file]. unfold bind.
    destruct (analyze_line line st) as [[[] | e] st1];
      [apply IH | reflexivity].
  - unfold bind. rewrite (analyze_line_unrecognized _ _ E). apply IH.
Qed.

Ltac line_cases H :=
  rewrite analyze_line_recognize in H;
  match type of H with
  | context [recognize ?line] =>
      destruct (recognize line) as [[[ts t] m] |]; [destruct t |]
  end;
  cbn [handler] in H;
  unfold analyze_http_start, analyze_http_end, analyze_req_start,
    analyze_req_end, analyze_slow, analyze_timeout, ret in H;
  repeat match type of H with
         | context [match ?x with _ => _ end] => destruct x eqn:?
         end;
  inversion H; subst; clear H.

(** The keys of [api_requests] grow by the ids of the REQ_START lines, and
    by nothing else. *)
Lemma analyze_line_api_keys (line : string) (st st' : LogAnalyzer) :
  analyze_line line st = (Return tt, st') ->
  dict_keys (api_requests st') =
  fold_left add_key (start_ids [line]) (dict_keys (api_requests st)).
Proof.
  intros H. unfold start_ids. cbn [flat_map]. rewrite app_nil_r.
  line_cases H; cbn [fold_left api_requests set_http set_api set_peak
                       add_slow add_timeout]; try reflexivity.
  - apply dict_keys_set.
  - apply dict_keys_set.
  - rewrite dict_keys_set. apply add_key_present.
    rewrite dict_get_keys. unfold dict_mem.
    match goal with H : dict_get _ _ = Some _ |- _ => now rewrite H end.
Qed.

Lemma analyze_file_api_keys (log : list string) (st st' : LogAnalyzer) :
  analyze_file log st = (Return tt, st') ->
  dict_keys (api_requests st') =
  fold_left add_key (start_ids log) (dict_keys (api_requests st)).
Proof.
  revert st. induction log as [| line log IH]; intros st H.
  - inversion H. reflexivity.
  - cbn [analyze_file] in H. unfold bind in H.
    destruct (analyze_line line st) as [[[] | e] st1] eqn:Hl; [| discriminate].
    change (line :: log) with ([line] ++ log).
    unfold start_ids. rewrite flat_map_app, fold_left_app.
    fold (start_ids [line]). fold (start_ids log).
    rewrite <- (analyze_line_api_keys _ _ _ Hl). apply IH, H.
Qed.

Lemma analyze_line_http_keys (line : string) (st st' : LogAnalyzer) :
  analyze_line line st = (Return tt, st') ->
  dict_keys (http_requests st') =
  fold_left add_key (http_start_ids [line]) (dict_keys (http_requests st)).
Proof.
  intros H. unfold http_start_ids. cbn [flat_map]. rewrite app_nil_r.
  line_cases H; cbn [fold_left http_requests set_http set_api set_peak
                       add_slow add_timeout]; try reflexivity.
  - apply dict_keys_set.
  - rewrite dict_keys_set. apply add_key_present.
    rewrite dict_get_keys. unfold dict_mem.
    match goal with H : dict_get _ _ = Some _ |- _ => now rewrite H end.
Qed.

Lemma analyze_file_http_keys (log : list string) (st st' : LogAnalyzer) :
  analyze_file log st = (Return tt, st') ->
  dict_keys (http_requests st') =
  fold_left add_key (http_start_ids log) (dict_keys (http_requests st)).
Proof.
  revert st. induction log as [| line log IH]; intros st H.
  - inversion H. reflexivity.
  - cbn [analyze_file] in H. unfold bind in H.
    destruct (analyze_line line st) as [[[] | e] st1] eqn:Hl; [| discriminate].
    change (line :: log) with ([line] ++ log).
    unfold http_start_ids. rewrite flat_map_app, fold_left_app.
    fold (http_start_ids [line]). fold (http_start_ids log).
    rewrite <- (analyze_line_http_keys _ _ _ Hl). apply IH, H.
Qed.



Lemma main_returns (log : list string) (r : Report) :
  main log = Return r ->
  exists st, analyze_file log new_analyzer = (Return tt, st) /\
             r = generate_report st.
Proof.
  unfold main.
  destruct (analyze_file log new_analyzer) as [[[] | e] st]; [| discriminate].
  intros H. inversion H. eauto.
Qed.

(** A REQ_START line: the entry is written under its id and the peak is
    the larger of the old peak and the active count of the line. *)
Lemma req_start_step (line : string) (ts : datetime) (m : list string)
    (st : LogAnalyzer) :
  recognize line = Some (ts, REQ_START, m) ->
  analyze_line line st =
  (Return tt,
   {| http_requests := http_requests st;
      api_requests := dict_set (group m 1) (entry_of_start ts m)
                               (api_requests st);
      slow_requests := slow_requests st;
      timeouts := timeouts st;
      errors := errors st;
      concurrent_peak := Z.max (concurrent_peak st) (int_of (group m 6)) |}).
Proof.
  intros Hrec. rewrite analyze_line_recognize, Hrec. cbn [handler].
  unfold analyze_req_start, set_api, set_peak, entry_of_start.
  cbn [concurrent_peak api_requests http_requests slow_requests timeouts
       errors].
  destruct (Z.ltb_spec (concurrent_peak st) (int_of (group m 6))).
  - now rewrite Z.max_r by lia.
  - now rewrite Z.max_l by lia.
Qed.

(** C6.  A log whose recognized lines are three REQ_START lines with
    pairwise distinct ids and the active counts 0, 1 and 2 (any other line
    being one the analyzer skips): the report is produced, its concurrency
    peak is 2, and its mean concurrency is 3/3 = 1 with maximum 2. *)
Theorem three_starts_give_peak_two_and_mean_one
    (log : list string) (l1 l2 l3 : string) (ts1 ts2 ts3 : datetime)
    (m1 m2 m3 : list string) :
  List.filter recognized log = [l1; l2; l3] ->
  recognize l1 = Some (ts1, REQ_START, m1) ->
  recognize l2 = Some (ts2, REQ_START, m2) ->
  recognize l3 = Some (ts3, REQ_START, m3) ->
  int_of (group m1 6) = 0 ->
  int_of (group m2 6) = 1 ->
  int_of (group m3 6) = 2 ->
  group m1 1 <> group m2 1 ->
  group m1 1 <> group m3 1 ->
  group m2 1 <> group m3 1 ->
  exists r c,
    main log = Return r /\
    r_peak r = 2 /\
    r_api_total r = 3%nat /\
    r_concurrency r = Some c /\
    (conc_mean c == 1)%Q /\
    conc_max c = 2.
Proof.
  intros Hlog H1 H2 H3 A1 A2 A3 N12 N13 N23.
  assert (E21 : String.eqb (group m2 1) (group m1 1) = false)
    by (apply String.eqb_neq; congruence).
  assert (E31 : String.eqb (group m3 1) (group m1 1) = false)
    by (apply String.eqb_neq; congruence).
  assert (E32 : String.eqb (group m3 1) (group m2 1) = false)
    by (apply String.eqb_neq; congruence).
  unfold main. rewrite analyze_file_recognized, Hlog.
  cbn [analyze_file]. unfold bind.
  rewrite (req_start_step _ _ _ _ H1), (req_start_step _ _ _ _ H2),
    (req_start_step _ _ _ _ H3).
  unfold ret, new_analyzer, entry_of_start.
  cbn [api_requests concurrent_peak http_requests slow_requests timeouts
       errors dict_set].
  rewrite A1, A2, A3, E21. cbn [dict_set]. rewrite E31, E32.
  eexists. eexists.
  split; [reflexivity |].
  unfold generate_report, concurrency_summary, active_counts, dict_values.
  cbn [r_peak r_api_total r_concurrency concurrent_peak api_requests map snd
       length a_active_count_start].
  repeat split; reflexivity.
Qed.



(** C9.  After a REQ_START line the entry under its id holds the fields of
    that line and nothing else, whatever the lines before it wrote under
    the id; and the total of API calls in the report is the number of
    distinct ids of the REQ_START lines of the log. *)
Theorem api_calls_are_keyed_by_id :
  (forall (pre : list string) (line : string) (ts : datetime)
          (m : list string) (st' : LogAnalyzer),
      recognize line = Some (ts, REQ_START, m) ->
      analyze_file (pre ++ [line]) new_analyzer = (Return tt, st') ->
      dict_get (group m 1) (api_requests st') = Some (entry_of_start ts m)) /\
  (forall (log : list string) (r : Report),
      main log = Return r ->
      r_api_total r = length (nodup string_dec (start_ids log))).
Proof.
  split.
  - intros pre line ts m st' Hrec Hscan.
    rewrite analyze_file_app in Hscan.
    destruct (analyze_file pre new_analyzer) as [[[] | e'] st];
      [| discriminate].
    cbn [analyze_file] in Hscan. unfold bind, ret in Hscan.
    rewrite analyze_line_recognize, Hrec in Hscan. cbn [handler] in Hscan.
    unfold analyze_req_start in Hscan. inversion Hscan; subst; clear Hscan.
    match goal with
    | |- context [if ?b then _ else _] => destruct b
    end; cbn [api_requests set_peak set_api]; apply dict_get_set_eq.
  - intros log r Hmain.
    destruct (main_returns _ _ Hmain) as (st & Hscan & ->).
    unfold generate_report. cbn [r_api_total].
    rewrite dict_length_keys, (analyze_file_api_keys _ _ _ Hscan).
    apply distinct_length.
Qed.

End AnalyzerProperties.

Section AnalyzerWitnesses.

Import Analyzer Fixtures.

Lemma three_starts_witness :
  List.filter recognized three_starts = [start1; start2; start3] /\
  exists r c,
    main three_starts = Return r /\
    r_peak r = 2 /\
    r_api_total r = 3%nat /\
    r_concurrency r = Some c /\
    (conc_mean c == 1)%Q /\
    conc_max c = 2.
Proof.
  assert (Hlog : List.filter recognized three_starts
                 = [start1; start2; start3]) by (vm_compute; reflexivity).
  split; [exact Hlog |].
  apply (three_starts_give_peak_two_and_mean_one
           three_starts start1 start2 start3
           (at_second 0) (at_second 1) (at_second 2)
           (start_groups "1" "0") (start_groups "2" "1")
           (start_groups "3" "2") Hlog);
    try (vm_compute; reflexivity); discriminate.
Defined.



(** The analyzer is only repeatable from a new state: a second scan on the
    analyzer the first scan has filled counts the timeout twice. *)
Example reused_analyzer_counts_twice :
  let used := snd (analyze_file [orphan_timeout] new_analyzer) in
  (exists r, run_from new_analyzer [orphan_timeout] = Return r
             /\ r_timeout_total r = 1%nat) /\
  (exists r, run_from used [orphan_timeout] = Return r
             /\ r_timeout_total r = 2%nat).
Proof. split; eexists; (split; [vm_compute; reflexivity | reflexivity]). Qed.

Lemma api_calls_keyed_by_id_witness :
  (exists st',
      analyze_file ([start1] ++ [start1_again]) new_analyzer
      = (Return tt, st') /\
      dict_get "1" (api_requests st')
      = Some (entry_of_start (at_second 5) (start_groups "1" "4"))) /\
  (exists r,
      main [start1; start1_again; start2] = Return r /\
      r_api_total r = 2%nat).
Proof.
  split.
  - assert (Hscan : analyze_file ([start1] ++ [start1_again]) new_analyzer
                    = (Return tt,
                       snd (analyze_file ([start1] ++ [start1_again])
                                         new_analyzer)))
      by (vm_compute; reflexivity).
    eexists. split; [exact Hscan |].
    exact (proj1 api_calls_are_keyed_by_id
             [start1] start1_again (at_second 5) (start_groups "1" "4") _
             ltac:(vm_compute; reflexivity) Hscan).
  - assert (Hmain : exists r, main [start1; start1_again; start2] = Return r)
      by (eexists; vm_compute; reflexivity).
    destruct Hmain as (r & Hmain). exists r. split; [exact Hmain |].
    rewrite (proj2 api_calls_are_keyed_by_id _ r Hmain).
    vm_compute. reflexivity.
Defined.

(** An elapsed text that [float] rejects ends the scan with its
    [ValueError]: the conversion comes before the look-up of the id. *)
Example malformed_elapsed_raises :
  main [("2024-01-15 10:00:04 WARNING [REQ_END] id=9 elapsed=1.2.3s"
         ++ nl)%string]
  = Raise (Exn ValueError "could not convert string to float: '1.2.3'").
Proof. vm_compute. reflexivity. Qed.

End AnalyzerWitnesses.

(** * Further properties of the data access layer *)

Section StoreMore.

Import Store.

Variable drv : Driver.

Ltac run_m :=
  unfold bind, ret, raise, try_except, try_finally, when_,
    emit, set_conn, get_self_conn, call, time, logged in *;
  cbn [fst snd config conn events] in *.

Ltac split_cases :=
  repeat match goal with
         | |- context [match ?x with _ => _ end] => destruct x eqn:?
         | H : context [match ?x with _ => _ end] |- _ => destruct x eqn:?
         end.

Ltac inv_pairs :=
  repeat match goal with
         | H : (_, _) = (_, _) |- _ => inversion H; clear H; subst
         | u : unit |- _ => destruct u
         end.

(** ** The SQL text in the log records *)

Lemma substring_0_length (n : nat) (s : string) :
  String.length (substring 0 n s) = Nat.min n (String.length s).
Proof.
  revert s. induction n as [| n IH]; intros [| c s]; cbn; try reflexivity.
  now rewrite IH.
Qed.

Lemma substring_0_prefix (n : nat) (s : string) :
  String.prefix (substring 0 n s) s = true.
Proof.
  revert s. induction n as [| n IH]; intros [| c s]; cbn; try reflexivity.
  rewrite IH. destruct (ascii_dec c c); [reflexivity | congruence].
Qed.

Lemma substring_0_all (n : nat) (s : string) :
  (String.length s <= n)%nat -> substring 0 n s = s.
Proof.
  revert s. induction n as [| n IH]; intros [| c s]; cbn; intros H;
    try reflexivity; try lia.
  rewrite IH; [reflexivity | lia].
Qed.

(** X1.  The SQL text of a log record is never longer than 50 characters;
    it is the statement itself when that has at most 50 characters and a
    prefix of it otherwise. *)
Theorem sql_preview_is_a_bounded_prefix (q : string) (params : list string) :
  (String.length (sql_preview (q :: params)) <= 50)%nat /\
  String.prefix (sql_preview (q :: params)) q = true /\
  ((String.length q <= 50)%nat -> sql_preview (q :: params) = q) /\
  ((50 < String.length q)%nat ->
   String.length (sql_preview (q :: params)) = 50%nat).
Proof.
  unfold sql_preview. repeat split.
  - rewrite substring_0_length. lia.
  - apply substring_0_prefix.
  - apply substring_0_all.
  - intros H. rewrite substring_0_length. lia.
Qed.

(** ** How much one call of [execute] can do *)

Ltac give_segment :=
  match goal with
  | |- exists new, ?t0 = new ++ ?t0 /\ _ => exists []
  | |- exists new, ?x1 :: ?t0 = new ++ ?t0 /\ _ => exists [x1]
  | |- exists new, ?x1 :: ?x2 :: ?t0 = new ++ ?t0 /\ _ => exists [x1; x2]
  | |- exists new, ?x1 :: ?x2 :: ?x3 :: ?t0 = new ++ ?t0 /\ _ =>
      exists [x1; x2; x3]
  | |- exists new, ?x1 :: ?x2 :: ?x3 :: ?x4 :: ?t0 = new ++ ?t0 /\ _ =>
      exists [x1; x2; x3; x4]
  | |- exists new, ?x1 :: ?x2 :: ?x3 :: ?x4 :: ?x5 :: ?t0 = new ++ ?t0 /\ _ =>
      exists [x1; x2; x3; x4; x5]
  end; (split; [reflexivity |]).

Lemma connects_app (t1 t2 : trace) :
  connects (t1 ++ t2) = (connects t1 + connects t2)%nat.
Proof. unfold connects. now rewrite List.filter_app, length_app. Qed.

Lemma first_attempt_segment (a : list string) (kw_cursor : option cursor_id)
    (t0 : Q) (s s1 : state) (r : result (option cursor_id)) :
  first_attempt drv a kw_cursor t0 s = (r, s1) ->
  exists new, events s1 = new ++ events s /\
    (attempts new <= 1)%nat /\ reconnects new = 0%nat /\
    db_errors new = 0%nat /\ (connects new <= 1)%nat /\
    (forall v, r = Return v -> attempts new = 1%nat).
Proof.
  unfold first_attempt, get_conn, connect_db, conn_cursor, cursor_execute.
  run_m. intros H.
  split_cases; run_m; try discriminate; inv_pairs; cbn in *;
    give_segment; unfold attempts, reconnects, db_errors, connects; cbn;
    repeat split; try lia; intros; try discriminate; try congruence;
    reflexivity.
Qed.

Lemma retry_segment_full (a : list string) (s2 s' : state)
    (r : result (option cursor_id)) :
  reconnect_and_retry_spec drv a s2 = (r, s') ->
  exists new, events s' = new ++ events s2 /\
    (attempts new <= 1)%nat /\ reconnects new = 0%nat /\
    db_errors new = 0%nat /\ (connects new <= 1)%nat.
Proof.
  unfold reconnect_and_retry_spec, conn_and_close, connect_db, conn_cursor,
    cursor_execute.
  run_m. intros H.
  split_cases; run_m; try discriminate; inv_pairs; cbn in *;
    give_segment; unfold attempts, reconnects, db_errors, connects; cbn;
    repeat split; lia.
Qed.

(** X2.  One call of [execute] only adds to the trace, and what it adds is
    bounded whatever the driver does: at most two statement executions, at
    most two connection attempts, and at most one record that is either
    DB_RECONNECT or DB_ERROR.  There is no second retry. *)
Theorem execute_is_bounded (a : list string) (kw_cursor : option cursor_id)
    (s : state) :
  exists new,
    events (snd (execute drv a kw_cursor s)) = new ++ events s /\
    (attempts new <= 2)%nat /\
    (connects new <= 2)%nat /\
    (reconnects new + db_errors new <= 1)%nat.
Proof.
  rewrite execute_unfold. cbv zeta.
  destruct (first_attempt drv a kw_cursor (drv_time drv (events s)) s)
    as [[v | e] s1] eqn:Hfirst;
    destruct (first_attempt_segment _ _ _ _ _ _ Hfirst)
      as (new1 & Hev1 & Ha1 & Hr1 & Hd1 & Hc1 & _).
  - exists new1. cbn [snd]. repeat split; try assumption; lia.
  - destruct (is_transient e).
    + rewrite reconnect_handler_spec.
      destruct (reconnect_and_retry_spec drv a _) as [r s'] eqn:Hretry.
      destruct (retry_segment_full _ _ _ _ Hretry)
        as (new2 & Hev2 & Ha2 & Hr2 & Hd2 & Hc2).
      cbn [snd]. cbn [logged events] in Hev2.
      exists (new2 ++ DB_RECONNECT (drv_thread drv) (sql_preview a)
                (drv_time drv (events s1) - drv_time drv (events s))
                (exn_msg e) :: new1).
      split; [rewrite Hev2, Hev1, <- app_assoc; reflexivity |].
      rewrite attempts_app, connects_app, reconnects_app, db_errors_app.
      change (attempts (DB_RECONNECT (drv_thread drv) (sql_preview a)
                (drv_time drv (events s1) - drv_time drv (events s))
                (exn_msg e) :: new1)) with (attempts new1).
      change (connects (DB_RECONNECT (drv_thread drv) (sql_preview a)
                (drv_time drv (events s1) - drv_time drv (events s))
                (exn_msg e) :: new1)) with (connects new1).
      change (reconnects (DB_RECONNECT (drv_thread drv) (sql_preview a)
                (drv_time drv (events s1) - drv_time drv (events s))
                (exn_msg e) :: new1)) with (S (reconnects new1)).
      change (db_errors (DB_RECONNECT (drv_thread drv) (sql_preview a)
                (drv_time drv (events s1) - drv_time drv (events s))
                (exn_msg e) :: new1)) with (db_errors new1).
      repeat split; lia.
    + rewrite error_handler_raises. cbn [snd logged events].
      exists (DB_ERROR (drv_thread drv) (sql_preview a)
                (drv_time drv (events s1) - drv_time drv (events s))
                (exn_msg e) :: new1).
      split; [rewrite Hev1; reflexivity |].
      change (attempts (DB_ERROR (drv_thread drv) (sql_preview a)
                (drv_time drv (events s1) - drv_time drv (events s))
                (exn_msg e) :: new1)) with (attempts new1).
      change (connects (DB_ERROR (drv_thread drv) (sql_preview a)
                (drv_time drv (events s1) - drv_time drv (events s))
                (exn_msg e) :: new1)) with (connects new1).
      change (reconnects (DB_ERROR (drv_thread drv) (sql_preview a)
                (drv_time drv (events s1) - drv_time drv (events s))
                (exn_msg e) :: new1)) with (reconnects new1).
      change (db_errors (DB_ERROR (drv_thread drv) (sql_preview a)
                (drv_time drv (events s1) - drv_time drv (events s))
                (exn_msg e) :: new1)) with (S (db_errors new1)).
      repeat split; lia.
Qed.

(** ** The successful first attempt *)

Lemma Qgtb_lt (a b : Q) : Qgtb a b = true <-> (b < a)%Q.
Proof.
  unfold Qgtb. rewrite negb_true_iff.
  destruct (Qle_bool a b) eqn:E.
  - apply Qle_bool_iff in E. split; [discriminate |].
    intros H. exfalso. apply (Qlt_not_le _ _ H E).
  - split; [intros _ | reflexivity].
    apply Qnot_le_lt. intros H. apply Qle_bool_iff in H. congruence.
Qed.

(** X3.  A cursor handed in by the caller is used as it is: when the
    statement runs on it, [execute] returns that cursor, leaves the
    connection of the [DB] alone (none is opened, none is asked for a
    cursor), and writes the DB_SLOW record exactly when the statement took
    more than 0.1 seconds (a statement of exactly 0.1 seconds is not
    slow). *)
Theorem execute_with_supplied_cursor (a : list string) (k : cursor_id)
    (s : state) :
  drv_execute drv (events s) k a = Return tt ->
  let t1 := EvExecute k a :: events s in
  let elapsed := (drv_time drv t1 - drv_time drv (events s))%Q in
  execute drv a (Some k) s =
  (Return (Some k),
   State (config s) (conn s)
         (if Qgtb elapsed (1 # 10)
          then DB_SLOW (drv_thread drv) (sql_preview a) elapsed :: t1
          else t1)) /\
  (Qgtb elapsed (1 # 10) = true <-> (1 # 10 < elapsed)%Q).
Proof.
  intros Hok t1 elapsed. split; [| apply Qgtb_lt].
  rewrite execute_unfold. cbv zeta.
  unfold first_attempt, cursor_execute. run_m. rewrite Hok.
  fold t1. fold elapsed. destruct (Qgtb elapsed (1 # 10)); reflexivity.
Qed.

(** X4.  The connection is opened lazily and kept: a first attempt that
    returns has connected exactly once when the [DB] had no connection and
    no cursor was handed in, and leaves a connection behind; with a
    connection or a cursor at hand it does not connect and leaves [conn]
    as it was.  In both cases [execute] returns what the attempt returned
    after one statement execution, with no DB_RECONNECT and no DB_ERROR. *)
Theorem execute_connects_lazily_and_once
    (a : list string) (kw_cursor : option cursor_id) (s s1 : state)
    (v : option cursor_id) :
  first_attempt drv a kw_cursor (drv_time drv (events s)) s = (Return v, s1) ->
  execute drv a kw_cursor s = (Return v, s1) /\
  attempts (events s1) = S (attempts (events s)) /\
  reconnects (events s1) = reconnects (events s) /\
  db_errors (events s1) = db_errors (events s) /\
  (match kw_cursor, conn s with
   | None, None =>
       connects (events s1) = S (connects (events s)) /\ is_Some (conn s1)
   | _, _ =>
       connects (events s1) = connects (events s) /\ conn s1 = conn s
   end).
Proof.
  intros Hfirst. split.
  { rewrite execute_unfold. cbv zeta. now rewrite Hfirst. }
  revert Hfirst.
  unfold first_attempt, get_conn, connect_db, conn_cursor, cursor_execute.
  run_m. intros H.
  split_cases; run_m; try discriminate; inv_pairs; cbn in *;
    try congruence;
    unfold attempts, reconnects, db_errors, connects; cbn;
    repeat split; eauto; congruence.
Qed.

(** ** Cursors and transactions *)



(** X6.  A commit that fails with an OperationalError is not reported:
    [insert] still returns the row id (read before the commit) and
    [update] the row count (read after it), the connection is dropped to
    [None] and the cursor is closed; only a failing close of the cursor
    changes the outcome. *)
Theorem a_lost_commit_is_not_reported
    (a : list string) (kw_cursor : option cursor_id) (s s1 : state)
    (k : cursor_id) (c : conn_id) (e : exn) :
  execute drv a kw_cursor s = (Return (Some k), s1) ->
  conn s1 = Some c ->
  drv_commit drv (events s1) c = Raise e ->
  is_operational e = true ->
  let t2 := EvCommit c :: events s1 in
  let s2 := State (config s1) None (EvCursorClose k :: t2) in
  insert drv a kw_cursor s =
  (match drv_cursor_close drv t2 k with
   | Return _ => Return (Some (drv_lastrowid drv (events s1) k))
   | Raise e' => Raise e'
   end, s2) /\
  update drv a kw_cursor s =
  (match drv_cursor_close drv t2 k with
   | Return _ => Return (Some (drv_rowcount drv t2 k))
   | Raise e' => Raise e'
   end, s2).
Proof.
  intros Hexec Hconn Hcommit Hop t2 s2.
  unfold insert, update. rewrite Hexec.
  unfold cursor_lastrowid, cursor_rowcount, commit, cursor_and_close.
  run_m. rewrite Hconn, Hcommit, Hop. cbn [fst snd config conn events].
  fold t2. split; destruct (drv_cursor_close drv t2 k); reflexivity.
Qed.

Lemma first_columns_spec (rows : list row) :
  first_columns rows =
  if existsb empty_row rows
  then Raise (Exn IndexError "tuple index out of range")
  else Return (map (hd EmptyString) rows).
Proof.
  induction rows as [| [| x r] rows IH]; cbn; try reflexivity.
  rewrite IH. destruct (existsb empty_row rows); reflexivity.
Qed.

(** X7.  [query_one] and [query_column] against [query_all]: an exception
    of [query_all] comes out of both unchanged; on an empty result
    [query_one] gives [None] and [query_column] the empty list; otherwise
    [query_one] gives the first row, and [query_column] the first column of
    every row, or an IndexError when some row has no column. *)
Theorem query_one_and_query_column_follow_query_all
    (a : list string) (kw_cursor : option cursor_id) (s : state) :
  match query_all drv a kw_cursor s with
  | (Raise e, s1) =>
      query_one drv a kw_cursor s = (Raise e, s1) /\
      query_column drv a kw_cursor s = (Raise e, s1)
  | (Return rows, s1) =>
      query_one drv a kw_cursor s = (Return (List.head rows), s1) /\
      query_column drv a kw_cursor s =
      (if existsb empty_row rows
       then Raise (Exn IndexError "tuple index out of range")
       else Return (map (hd EmptyString) rows), s1)
  end.
Proof.
  unfold query_one, query_column, bind, ret.
  destruct (query_all drv a kw_cursor s) as [[rows | e] s1].
  - split; [destruct rows; reflexivity |].
    now rewrite first_columns_spec.
  - split; reflexivity.
Qed.

End StoreMore.

Section StoreMoreWitnesses.

Import Store Fixtures.

Lemma sql_preview_witness :
  ((String.length "SELECT 1" <= 50)%nat /\
   sql_preview ["SELECT 1"] = "SELECT 1") /\
  ((50 < String.length long_sql)%nat /\
   String.length (sql_preview [long_sql]) = 50%nat).
Proof.
  assert (H1 : (String.length "SELECT 1" <= 50)%nat) by (cbn; lia).
  assert (H2 : (50 < String.length long_sql)%nat) by (cbn; lia).
  split; (split; [assumption |]).
  - exact (proj1 (proj2 (proj2 (sql_preview_is_a_bounded_prefix
                                  "SELECT 1" []))) H1).
  - exact (proj2 (proj2 (proj2 (sql_preview_is_a_bounded_prefix
                                  long_sql []))) H2).
Defined.

Lemma supplied_cursor_witness :
  drv_execute healthy (events fresh_db) 3%nat select1 = Return tt /\
  execute healthy select1 (Some 3%nat) fresh_db
  = (Return (Some 3%nat), State cfg0 None [EvExecute 3%nat select1]).
Proof.
  split; [reflexivity |].
  pose proof (execute_with_supplied_cursor healthy select1 3%nat fresh_db
                eq_refl) as H.
  cbv zeta in H. destruct H as [H _].
  etransitivity; [exact H | vm_compute; reflexivity].
Defined.

Lemma lazy_connection_witness :
  first_attempt healthy select1 None (drv_time healthy (events fresh_db))
    fresh_db = (Return (Some 3%nat), after_success) /\
  connects (events after_success) = S (connects (events fresh_db)) /\
  is_Some (conn after_success).
Proof.
  assert (H : first_attempt healthy select1 None
                (drv_time healthy (events fresh_db)) fresh_db
              = (Return (Some 3%nat), after_success))
    by (vm_compute; reflexivity).
  split; [exact H |].
  exact (proj2 (proj2 (proj2 (proj2
           (execute_connects_lazily_and_once healthy select1 None fresh_db
              after_success (Some 3%nat) H))))).
Defined.


Lemma lost_commit_witness :
  execute commit_lost select1 None fresh_db
  = (Return (Some 3%nat), after_success) /\
  is_operational gone_away = true /\
  insert commit_lost select1 None fresh_db
  = (Return (Some 123),
     State cfg0 None
           (EvCursorClose 3%nat :: EvCommit 7%nat :: events after_success)) /\
  update commit_lost select1 None fresh_db
  = (Return (Some 5),
     State cfg0 None
           (EvCursorClose 3%nat :: EvCommit 7%nat :: events after_success)).
Proof.
  assert (H : execute commit_lost select1 None fresh_db
              = (Return (Some 3%nat), after_success))
    by (vm_compute; reflexivity).
  split; [exact H |]. split; [reflexivity |].
  exact (a_lost_commit_is_not_reported commit_lost select1 None fresh_db
           after_success 3%nat 7%nat gone_away H eq_refl eq_refl eq_refl).
Defined.

End StoreMoreWitnesses.

(** * Further properties of the outbound call tracker *)

Section CorelibMore.

Import Corelib.

Variable env : Env.

(** What a call does with a token, step by step. *)
Lemma complete_call_with_token (ctx : context) (method : string)
    (args : list string) (kw : kwargs) (l : locals) (s : state) (tok : token) :
  g_user_token ctx = Some tok ->
  let hs := built_headers tok kw in
  let outcome :=
    if is_supported method then env_http env (events s) method args hs
    else Raise (Exn PlainException "invalid http method") in
  let t2 := if is_supported method then EvHttp method args hs :: events s
            else events s in
  let elapsed := (env_time env t2 - start_time l)%Q in
  let t3 := outcome_records l method elapsed outcome ++ t2 in
  let registry := delete (request_id l) (_active_requests s) in
  complete_call env ctx method args kw l s =
  (outcome,
   State (_request_counter s) registry
         (REQ_END (request_id l) (env_time env t3 - start_time l)
                  (size registry) :: t3)).
Proof.
  intros Htok. cbv zeta. unfold complete_call. rewrite Htok.
  fold (built_headers tok kw).
  unfold try_finally, try_except, perform, on_error, cleanup.
  fold (is_supported method).
  unfold bind, time, emit, when_, ret, raise.
  destruct (is_supported method); cbn [fst snd events _request_counter
                                         _active_requests].
  - destruct (env_http env (events s) method args (built_headers tok kw))
      as [resp | e]; cbn [outcome_records].
    + destruct (Qgtb _ 2); cbn [app fst snd events _request_counter
                                  _active_requests];
        rewrite unregister_deletes; reflexivity.
    + cbn [app]. rewrite unregister_deletes. reflexivity.
  - cbn [outcome_records exn_cls app]. rewrite unregister_deletes.
    reflexivity.
Qed.

(** X8.  With a token and one of the four methods the tracker is
    transparent: the call returns or raises exactly what the HTTP library
    returned or raised, after one network call that carries the built
    headers; the outcome is recorded as REQ_SUCCESS (with REQ_SLOW when it
    took more than 2 seconds), REQ_TIMEOUT, REQ_CONN_ERROR or
    REQ_EXCEPTION, and REQ_END is the last record. *)
Theorem auth_requests_is_transparent (ctx : context) (method : string)
    (args : list string) (kw : kwargs) (s : state) (tok : token) :
  g_user_token ctx = Some tok ->
  is_supported method = true ->
  let id := _request_counter s + 1 in
  let l := {| request_id := id; caller := find_caller (stack ctx);
              start_time := env_time env (events s);
              url := url_of args kw |} in
  let t1 := REQ_START id method (url l) (caller l) (thread_name ctx)
                      (size (_active_requests s)) :: events s in
  let hs := built_headers tok kw in
  let outcome := env_http env t1 method args hs in
  let t2 := EvHttp method args hs :: t1 in
  let elapsed := (env_time env t2 - start_time l)%Q in
  fst (auth_requests env ctx method args kw s) = outcome /\
  exists end_elapsed n,
    events (snd (auth_requests env ctx method args kw s))
    = REQ_END id end_elapsed n
      :: outcome_records l method elapsed outcome ++ t2.
Proof.
  intros Htok Hsup. cbv zeta.
  unfold auth_requests, bind.
  destruct (admit_call_registers env ctx method args kw s)
    as (l & r & Hadm & Hid).
  pose proof Hadm as Hadm'.
  unfold admit_call, bind, next_request_id, time, register, emit, ret in Hadm'.
  cbn [fst snd _request_counter _active_requests events] in Hadm'.
  inversion Hadm' as [[Hl Hr]]. clear Hadm'.
  rewrite Hadm.
  rewrite (complete_call_with_token ctx method args kw l _ tok Htok).
  rewrite Hsup. cbn [fst snd events]. rewrite <- Hl.
  cbn [request_id caller start_time url].
  split; [reflexivity |]. do 2 eexists. reflexivity.
Qed.

Lemma http_calls_app (t1 t2 : trace) :
  http_calls (t1 ++ t2) = (http_calls t1 + http_calls t2)%nat.
Proof. unfold http_calls. now rewrite List.filter_app, length_app. Qed.

Lemma http_calls_records (l : locals) (method : string) (elapsed : Q)
    (outcome : result response) :
  http_calls (outcome_records l method elapsed outcome) = 0%nat.
Proof.
  destruct outcome as [resp | e]; cbn.
  - destruct (Qgtb elapsed 2); reflexivity.
  - destruct (exn_cls e); reflexivity.
Qed.

(** The state a call leaves, with and without a token. *)
Lemma auth_requests_state (ctx : context) (method : string)
    (args : list string) (kw : kwargs) (s : state) :
  let id := _request_counter s + 1 in
  let t1 := REQ_START id method (url_of args kw) (find_caller (stack ctx))
                      (thread_name ctx) (size (_active_requests s))
            :: events s in
  _request_counter (snd (auth_requests env ctx method args kw s)) = id /\
  exists new,
    events (snd (auth_requests env ctx method args kw s)) = new ++ t1 /\
    http_calls new =
    (if match g_user_token ctx with Some _ => is_supported method
        | None => false end
     then 1 else 0)%nat.
Proof.
  cbv zeta. unfold auth_requests, bind.
  destruct (admit_call_registers env ctx method args kw s)
    as (l & r & Hadm & Hid).
  pose proof Hadm as Hadm'.
  unfold admit_call, bind, next_request_id, time, register, emit, ret in Hadm'.
  cbn [fst snd _request_counter _active_requests events] in Hadm'.
  inversion Hadm' as [[Hl Hr]]. clear Hadm'.
  rewrite Hadm. rewrite <- Hl. cbn [request_id caller start_time url].
  rewrite Hl.
  destruct (g_user_token ctx) as [tok |] eqn:Htok.
  - rewrite (complete_call_with_token ctx method args kw l _ tok Htok).
    cbn [snd _request_counter events]. split; [reflexivity |].
    destruct (is_supported method).
    + eexists (REQ_END _ _ _ :: outcome_records _ _ _ _ ++ [EvHttp _ _ _]).
      split; [cbn [app]; rewrite <- app_assoc; reflexivity |].
      change (REQ_END ?a ?b ?c :: ?x) with ([REQ_END a b c] ++ x).
      rewrite !http_calls_app, http_calls_records. reflexivity.
    + eexists (REQ_END _ _ _ :: outcome_records _ _ _ _).
      split; [reflexivity |].
      change (REQ_END ?a ?b ?c :: ?x) with ([REQ_END a b c] ++ x).
      rewrite !http_calls_app, http_calls_records. reflexivity.
  - rewrite (complete_call_without_token env _ _ _ _ _ _ Htok).
    cbn [snd _request_counter events]. split; [reflexivity |].
    exists [REQ_ERROR (request_id l) "no_api_token"]. split; reflexivity.
Qed.

(** X9.  Every call takes the next id, whatever its outcome: after any
    sequence of calls the counter has advanced by the number of calls, and
    each call writes REQ_START with the id one above the counter it found
    and with the size the registry had before the call was registered. *)
Theorem request_ids_advance_by_one_per_call
    (calls : list (context * string * list string * kwargs)) (s : state) :
  _request_counter (run_calls env calls s)
  = _request_counter s + Z.of_nat (length calls) /\
  forall ctx method args kw,
    exists new,
      events (snd (auth_requests env ctx method args kw s))
      = new ++ REQ_START (_request_counter s + 1) method (url_of args kw)
                 (find_caller (stack ctx)) (thread_name ctx)
                 (size (_active_requests s)) :: events s.
Proof.
  split.
  - revert s. induction calls as [| [[[ctx method] args] kw] rest IH];
      intros s; cbn [run_calls length].
    + lia.
    + rewrite IH.
      destruct (auth_requests_state ctx method args kw s) as (Hc & _).
      cbv zeta in Hc. rewrite Hc. lia.
  - intros ctx method args kw.
    destruct (auth_requests_state ctx method args kw s)
      as (_ & new & Hev & _).
    exists new. exact Hev.
Qed.

(** X10.  The tracker fails fast: without a token the call raises
    "no api token", with a token and a method other than POST, GET, PUT and
    DELETE it raises "invalid http method", and in both cases no network
    call is made; in every other case exactly one is made. *)
Theorem no_network_call_without_token_or_method
    (ctx : context) (method : string) (args : list string) (kw : kwargs)
    (s : state) :
  (g_user_token ctx = None ->
   fst (auth_requests env ctx method args kw s)
   = Raise (Exn PlainException "no api token")) /\
  (forall tok, g_user_token ctx = Some tok -> is_supported method = false ->
   fst (auth_requests env ctx method args kw s)
   = Raise (Exn PlainException "invalid http method")) /\
  http_calls (events (snd (auth_requests env ctx method args kw s)))
  = (http_calls (events s)
     + if match g_user_token ctx with Some _ => is_supported method
          | None => false end
       then 1 else 0)%nat.
Proof.
  repeat split.
  - intros Htok. unfold auth_requests, bind.
    destruct (admit_call_registers env ctx method args kw s)
      as (l & r & Hadm & Hid).
    now rewrite Hadm, (complete_call_without_token env _ _ _ _ _ _ Htok).
  - intros tok Htok Hsup. unfold auth_requests, bind.
    destruct (admit_call_registers env ctx method args kw s)
      as (l & r & Hadm & Hid).
    rewrite Hadm, (complete_call_with_token ctx method args kw l _ tok Htok).
    now rewrite Hsup.
  - destruct (auth_requests_state ctx method args kw s)
      as (_ & new & Hev & Hn).
    rewrite Hev.
    change (REQ_START ?a ?b ?c ?d ?e ?f :: ?x)
      with ([REQ_START a b c d e f] ++ x).
    rewrite !http_calls_app, Hn. cbn. lia.
Qed.

(** ** Headers *)

Lemma header_get_set (k k' : string) (v : header_value) (hs : headers) :
  header_get k (header_set k' v hs) =
  if String.eqb k k' then Some v else header_get k hs.
Proof.
  induction hs as [| [k0 v0] rest IH]; cbn.
  - reflexivity.
  - destruct (String.eqb k' k0) eqn:E0; cbn.
    + apply String.eqb_eq in E0. subst k0.
      destruct (String.eqb k k'); reflexivity.
    + rewrite IH. destruct (String.eqb k k0) eqn:E1; [| reflexivity].
      apply String.eqb_eq in E1. subst k0.
      destruct (String.eqb k k') eqn:E2; [| reflexivity].
      apply String.eqb_eq in E2. subst k'.
      rewrite String.eqb_refl in E0. discriminate.
Qed.

Lemma header_get_app (k : string) (l1 l2 : headers) :
  header_get k (l1 ++ l2) =
  match header_get k l1 with Some v => Some v | None => header_get k l2 end.
Proof.
  induction l1 as [| [k0 v0] rest IH]; cbn; [reflexivity |].
  destruct (String.eqb k k0); [reflexivity | exact IH].
Qed.

Lemma header_get_update (k : string) (hs extra : headers) :
  header_get k (headers_update hs extra) =
  match header_get k (rev extra) with
  | Some v => Some v
  | None => header_get k hs
  end.
Proof.
  unfold headers_update. revert hs.
  induction extra as [| [k0 v0] rest IH]; intros hs; cbn [fold_left rev].
  - reflexivity.
  - rewrite IH, header_get_app, header_get_set. cbn [header_get fst snd].
    destruct (header_get k (rev rest)); [reflexivity |].
    destruct (String.eqb k k0); reflexivity.
Qed.

(** X11.  The headers of a call: a header the caller passes wins over the
    one the tracker builds (the last value the caller gives for a key is
    the one sent), so a caller that passes its own Apitoken header replaces
    the token of the request; without it the Apitoken header carries the
    name and the signature of the token, and no other header is added. *)
Theorem caller_headers_override_the_token
    (tok : token) (kw : kwargs) (k : string) :
  header_get k (built_headers tok kw) =
  match match kw_headers kw with
        | Some extra => header_get k (rev extra)
        | None => None
        end with
  | Some v => Some v
  | None => if String.eqb k "Apitoken"
            then Some (HApitoken (tok_name tok) (tok_sig tok))
            else None
  end.
Proof.
  unfold built_headers. destruct (kw_headers kw) as [extra |].
  - now rewrite header_get_update.
  - reflexivity.
Qed.

(** ** Caller attribution *)

Lemma first_app_frame_unfold (frames : list frame) :
  first_app_frame frames =
  match frames with
  | [] => "unknown"%string
  | f :: rest => if is_app_frame f then format_frame f
                 else first_app_frame rest
  end.
Proof. destruct frames; reflexivity. Qed.

Lemma first_app_frame_skips (skipped rest : list frame) :
  Forall (fun f => is_app_frame f = false) skipped ->
  first_app_frame (skipped ++ rest) = first_app_frame rest.
Proof.
  induction 1 as [| f skipped Hf _ IH]; [reflexivity |].
  cbn [app]. rewrite first_app_frame_unfold, Hf. exact IH.
Qed.

(** X12.  The caller of a call is the innermost frame below the current
    one whose file lies under rrd/ and is not an __init__.py, written as
    path after the last rrd/, line and function; the current frame (the
    last of the stack) is never looked at, and the caller is "unknown" when
    no frame qualifies or the stack is empty. *)
Theorem find_caller_is_the_nearest_application_frame
    (outer inner : list frame) (f current : frame) :
  Forall (fun g => is_app_frame g = false) inner ->
  (is_app_frame f = true ->
   find_caller (outer ++ f :: inner ++ [current]) = format_frame f) /\
  (find_caller (inner ++ [current]) = "unknown"%string) /\
  find_caller [] = "unknown"%string.
Proof.
  intros Hinner. unfold find_caller, drop_last. repeat split.
  - intros Hf.
    replace (outer ++ f :: inner ++ [current])
      with ((outer ++ f :: inner) ++ [current])
      by (rewrite <- app_assoc; reflexivity).
    rewrite removelast_last, rev_app_distr. cbn [rev].
    rewrite <- app_assoc. cbn [app].
    rewrite first_app_frame_skips by (apply Forall_rev, Hinner).
    rewrite first_app_frame_unfold, Hf. reflexivity.
  - rewrite removelast_last.
    rewrite <- (app_nil_r (rev inner)).
    now rewrite first_app_frame_skips by (apply Forall_rev, Hinner).
Qed.

End CorelibMore.

Section CorelibMoreWitnesses.

Import Corelib Fixtures.

Lemma transparent_witness :
  g_user_token ctx_with_token
  = Some {| tok_name := "root"; tok_sig := "s3cr3t" |} /\
  is_supported "GET" = true /\
  fst (auth_requests backend_ok ctx_with_token "GET" team_url no_kwargs initial)
  = Return {| status_code := 200 |}.
Proof.
  split; [reflexivity |]. split; [reflexivity |].
  pose proof (auth_requests_is_transparent backend_ok ctx_with_token "GET"
                team_url no_kwargs initial
                {| tok_name := "root"; tok_sig := "s3cr3t" |}
                eq_refl eq_refl) as H.
  cbv zeta in H. destruct H as [H _].
  etransitivity; [exact H | reflexivity].
Defined.

Lemma fail_fast_witness :
  (g_user_token ctx_without_token = None /\
   fst (auth_requests backend_ok ctx_without_token "GET" team_url no_kwargs
          initial)
   = Raise (Exn PlainException "no api token")) /\
  (is_supported "PATCH" = false /\
   fst (auth_requests backend_ok ctx_with_token "PATCH" team_url no_kwargs
          initial)
   = Raise (Exn PlainException "invalid http method")).
Proof.
  split; (split; [reflexivity |]).
  - exact (proj1 (no_network_call_without_token_or_method backend_ok
                    ctx_without_token "GET" team_url no_kwargs initial)
                 eq_refl).
  - exact (proj1 (proj2 (no_network_call_without_token_or_method backend_ok
                           ctx_with_token "PATCH" team_url no_kwargs initial))
                 {| tok_name := "root"; tok_sig := "s3cr3t" |}
                 eq_refl eq_refl).
Defined.

Lemma find_caller_witness :
  is_app_frame {| filename := "/srv/dashboard/rrd/view/team.py";
                  lineno := 42; name := "teams" |} = true /\
  find_caller view_stack = "view/team.py:42:teams".
Proof.
  split; [reflexivity |].
  pose proof (proj1 (find_caller_is_the_nearest_application_frame
                       [] []
                       {| filename := "/srv/dashboard/rrd/view/team.py";
                          lineno := 42; name := "teams" |}
                       {| filename := "/srv/dashboard/rrd/corelib/__init__.py";
                          lineno := 41; name := "auth_requests" |}
                       (List.Forall_nil _)) eq_refl) as H.
  etransitivity; [exact H | reflexivity].
Defined.

End CorelibMoreWitnesses.

(** * Further properties of the log correlation engine *)

Section AnalyzerMore.

Import Analyzer.

Ltac line_cases H :=
  rewrite analyze_line_recognize in H;
  match type of H with
  | context [recognize ?line] =>
      destruct (recognize line) as [[[ts t] m] |]; [destruct t |]
  end;
  cbn [handler] in H;
  unfold analyze_http_start, analyze_http_end, analyze_req_start,
    analyze_req_end, analyze_slow, analyze_timeout, ret in H;
  repeat match type of H with
         | context [match ?x with _ => _ end] => destruct x eqn:?
         end;
  inversion H; subst; clear H.

(** ** Lines that are not records *)

Lemma search_needs_bracket (text : string) (rest : regex) (s : string) :
  has_char "["%char s = false ->
  re_search (Lit (String "["%char text) :: rest) s = None.
Proof.
  induction s as [| c s IH]; cbn [has_char re_search match_here strip_prefix].
  - reflexivity.
  - intros H. apply orb_false_iff in H. destruct H as [Hc Hs].
    rewrite Hc. apply IH, Hs.
Qed.

Lemma first_match_needs_bracket (s : string) :
  has_char "["%char s = false -> first_match patterns s = None.
Proof.
  intros H. unfold patterns, first_match, HTTP_START_RE, HTTP_END_RE,
    REQ_START_RE, REQ_END_RE, REQ_SLOW_RE, REQ_TIMEOUT_RE.
  now rewrite !(search_needs_bracket _ _ _ H).
Qed.

Lemma parse_line_needs_digit (line : string) :
  starts_with_digit line = false -> parse_line line = None.
Proof.
  unfold parse_line, TIMESTAMP_RE, d. destruct line as [| c line]; cbn.
  - reflexivity.
  - now intros ->.
Qed.

Lemma parse_line_same (line l : string) (ts : datetime) :
  parse_line line = Some (ts, l) -> l = line.
Proof.
  unfold parse_line. destruct (match_here TIMESTAMP_RE line); [| discriminate].
  destruct (strptime _); [| discriminate]. now intros [= _ <-].
Qed.

(** X13.  Unrelated log content is skipped: a line that is empty, that does
    not begin with a digit, or that holds no opening bracket is not
    recognized, leaves the analyzer as it is, and can be taken out of the
    log without changing the result of the program. *)
Theorem unrelated_lines_are_skipped (pre post : list string) (line : string) :
  starts_with_digit line = false \/ has_char "["%char line = false ->
  recognized line = false /\
  (forall st, analyze_line line st = (Return tt, st)) /\
  main (pre ++ line :: post) = main (pre ++ post).
Proof.
  intros H.
  assert (Hrec : recognized line = false).
  { unfold recognized, recognize. destruct H as [H | H].
    - now rewrite (parse_line_needs_digit _ H).
    - destruct (parse_line line) as [[ts l] |] eqn:Hp; [| reflexivity].
      rewrite (parse_line_same _ _ _ Hp).
      now rewrite (first_match_needs_bracket _ H). }
  split; [exact Hrec |]. split.
  - intros st. apply analyze_line_unrecognized, Hrec.
  - unfold main.
    rewrite (analyze_file_recognized (pre ++ line :: post)),
      (analyze_file_recognized (pre ++ post)).
    rewrite !List.filter_app. cbn [List.filter]. now rewrite Hrec.
Qed.

(** ** A malformed elapsed time *)

(** X14.  An elapsed text that [float] rejects is fatal: when a line is
    recognized as HTTP_END, REQ_END, REQ_SLOW or REQ_TIMEOUT and its elapsed
    group is such a text, the scan stops at that line with the ValueError,
    in the state the lines before it have built, and the program ends with
    that exception whatever follows in the log; no report is produced. *)
Theorem a_malformed_elapsed_ends_the_scan
    (pre post : list string) (line : string) (ts : datetime) (t : tag)
    (m : list string) (n : nat) (e : exn) (st : LogAnalyzer) :
  analyze_file pre new_analyzer = (Return tt, st) ->
  recognize line = Some (ts, t, m) ->
  elapsed_group t = Some n ->
  float_of (group m n) = Raise e ->
  analyze_file (pre ++ line :: post) new_analyzer = (Raise e, st) /\
  main (pre ++ line :: post) = Raise e.
Proof.
  intros Hpre Hrec Hgroup Hfloat.
  assert (Hscan : analyze_file (pre ++ line :: post) new_analyzer
                  = (Raise e, st)).
  { rewrite analyze_file_app, Hpre. cbn [analyze_file]. unfold bind.
    rewrite analyze_line_recognize, Hrec.
    destruct t; try discriminate; inversion Hgroup; subst n;
      cbn [handler];
      unfold analyze_http_end, analyze_req_end, analyze_slow, analyze_timeout;
      rewrite Hfloat; reflexivity. }
  split; [exact Hscan |]. unfold main. now rewrite Hscan.
Qed.

(** ** The concurrency peak *)

Lemma Forall_dict_set {V} (P : V -> Prop) (k : string) (v : V) (dct : dict V) :
  Forall (fun kv => P (snd kv)) dct -> P v ->
  Forall (fun kv => P (snd kv)) (dict_set k v dct).
Proof.
  intros Hd Hv. induction dct as [| [k' v'] rest IH]; cbn.
  - constructor; [exact Hv | constructor].
  - inversion Hd; subst. destruct (String.eqb k k').
    + constructor; assumption.
    + constructor; [assumption | apply IH; assumption].
Qed.

Lemma Forall_dict_get {V} (P : V -> Prop) (k : string) (v : V) (dct : dict V) :
  Forall (fun kv => P (snd kv)) dct -> dict_get k dct = Some v -> P v.
Proof.
  induction dct as [| [k' v'] rest IH]; cbn; [discriminate |].
  intros Hd. inversion Hd; subst. destruct (String.eqb k k').
  - now intros [= <-].
  - now apply IH.
Qed.

Lemma analyze_line_peak (line : string) (st st' : LogAnalyzer) :
  analyze_line line st = (Return tt, st') ->
  concurrent_peak st' =
  fold_left Z.max (start_counts [line]) (concurrent_peak st).
Proof.
  intros H. unfold start_counts. cbn [flat_map]. rewrite app_nil_r.
  line_cases H; cbn [fold_left concurrent_peak set_http set_api set_peak
                       add_slow add_timeout api_requests] in *;
    try reflexivity.
  - match goal with H : (_ <? _) = true |- _ => apply Z.ltb_lt in H end. lia.
  - match goal with H : (_ <? _) = false |- _ => apply Z.ltb_ge in H end. lia.
Qed.

Lemma analyze_line_below_peak (line : string) (st st' : LogAnalyzer) :
  analyze_line line st = (Return tt, st') ->
  below_peak st -> below_peak st'.
Proof.
  unfold below_peak. intros H Hinv.
  line_cases H; cbn [concurrent_peak set_http set_api set_peak
                       add_slow add_timeout api_requests] in *;
    try exact Hinv.
  - match goal with H : (_ <? _) = true |- _ => apply Z.ltb_lt in H end.
    apply (Forall_dict_set
             (fun r => a_active_count_start r <= int_of (group m 6)));
      [| cbn; lia].
    eapply List.Forall_impl; [| exact Hinv]. cbn. intros; lia.
  - match goal with H : (_ <? _) = false |- _ => apply Z.ltb_ge in H end.
    apply (Forall_dict_set
             (fun r => a_active_count_start r <= concurrent_peak st));
      [exact Hinv | cbn; lia].
  - apply (Forall_dict_set
             (fun r => a_active_count_start r <= concurrent_peak st));
      [exact Hinv |]. cbn.
    eapply (Forall_dict_get (fun r => a_active_count_start r
                                      <= concurrent_peak st));
      eassumption.
Qed.

Lemma analyze_file_peak (log : list string) (st st' : LogAnalyzer) :
  analyze_file log st = (Return tt, st') ->
  concurrent_peak st' = fold_left Z.max (start_counts log) (concurrent_peak st)
  /\ (below_peak st -> below_peak st').
Proof.
  revert st. induction log as [| line log IH]; intros st H.
  - inversion H. split; [reflexivity | trivial].
  - cbn [analyze_file] in H. unfold bind in H.
    destruct (analyze_line line st) as [[[] | e] st1] eqn:Hl; [| discriminate].
    destruct (IH _ H) as (Hp & Hb).
    change (line :: log) with ([line] ++ log).
    unfold start_counts. rewrite flat_map_app, fold_left_app.
    fold (start_counts [line]). fold (start_counts log).
    rewrite <- (analyze_line_peak _ _ _ Hl). split; [exact Hp |].
    intros Hinv. apply Hb. eapply analyze_line_below_peak; eassumption.
Qed.

Lemma fold_max_bound (l : list Z) (x p : Z) :
  x <= p -> Forall (fun y => y <= p) l -> fold_left Z.max l x <= p.
Proof.
  revert x. induction l as [| y l IH]; intros x Hx Hl; cbn; [exact Hx |].
  inversion Hl; subst. apply IH; [lia | assumption].
Qed.

Lemma fold_max_ge (l : list Z) (x : Z) : x <= fold_left Z.max l x.
Proof.
  revert x. induction l as [| y l IH]; intros x; cbn; [lia |].
  specialize (IH (Z.max x y)). lia.
Qed.

(** X15.  The peak of the report is the largest active count over all
    REQ_START lines of the log (0 when there is none), overwritten ones
    included; the maximum of the concurrency section, which is taken over
    the entries that are left, never exceeds it. *)
Theorem peak_covers_every_admission (log : list string) (r : Report) :
  main log = Return r ->
  r_peak r = fold_left Z.max (start_counts log) 0 /\
  0 <= r_peak r /\
  forall c, r_concurrency r = Some c -> conc_max c <= r_peak r.
Proof.
  intros Hmain.
  destruct (main_returns _ _ Hmain) as (st & Hscan & ->).
  destruct (analyze_file_peak _ _ _ Hscan) as (Hp & Hb).
  cbn [concurrent_peak new_analyzer] in Hp.
  unfold generate_report. cbn [r_peak r_concurrency].
  split; [exact Hp |]. split; [rewrite Hp; apply fold_max_ge |].
  intros c. unfold concurrency_summary.
  assert (Hinv : below_peak st) by (apply Hb; constructor).
  unfold below_peak in Hinv.
  assert (Hall : Forall (fun y => y <= concurrent_peak st) (active_counts st)).
  { unfold active_counts, dict_values. rewrite map_map.
    apply Forall_map. exact Hinv. }
  destruct (active_counts st) as [| c0 cs]; [discriminate |].
  intros [= <-]. cbn [conc_max]. unfold zmax_of.
  inversion Hall; subst. now apply fold_max_bound.
Qed.

(** ** The concurrency histogram *)

Lemma fold_add_shift (l : list Z) (a : Z) :
  fold_left Z.add l a = a + fold_left Z.add l 0.
Proof.
  revert a. induction l as [| x l IH]; intros a; cbn [fold_left]; [lia |].
  rewrite (IH (a + x)), (IH (0 + x)). lia.
Qed.

Lemma zsum_cons (x : Z) (l : list Z) : zsum (x :: l) = x + zsum l.
Proof. unfold zsum. cbn [fold_left]. rewrite fold_add_shift. lia. Qed.

Lemma zsum_perm (l l' : list Z) : Permutation l l' -> zsum l = zsum l'.
Proof.
  induction 1; rewrite ?zsum_cons; lia.
Qed.

Lemma counter_add_sum (k : Z) (c : list (Z * Z)) :
  zsum (map snd (counter_add k c)) = zsum (map snd c) + 1.
Proof.
  induction c as [| [k' n] rest IH]; cbn [counter_add map snd].
  - reflexivity.
  - destruct (k =? k'); cbn [map snd]; rewrite !zsum_cons; [| rewrite IH];
      lia.
Qed.

Lemma counter_add_keys (k : Z) (c : list (Z * Z)) (x : Z) :
  In x (map fst (counter_add k c)) <-> In x (map fst c) \/ x = k.
Proof.
  induction c as [| [k' n] rest IH]; cbn [counter_add map fst In].
  - intuition.
  - destruct (k =? k') eqn:E; cbn [map fst In].
    + apply Z.eqb_eq in E. subst. intuition.
    + rewrite IH. intuition.
Qed.

Lemma counter_add_NoDup (k : Z) (c : list (Z * Z)) :
  List.NoDup (map fst c) -> List.NoDup (map fst (counter_add k c)).
Proof.
  induction c as [| [k' n] rest IH]; cbn [counter_add map fst]; intros Hnd.
  - constructor; [intros [] | constructor].
  - destruct (k =? k') eqn:E; cbn [map fst]; [exact Hnd |].
    inversion Hnd; subst. constructor; [| apply IH; assumption].
    rewrite counter_add_keys. apply Z.eqb_neq in E. intuition.
Qed.

Lemma counter_add_positive (k : Z) (c : list (Z * Z)) :
  Forall (fun kv => 1 <= snd kv) c ->
  Forall (fun kv => 1 <= snd kv) (counter_add k c).
Proof.
  induction c as [| [k' n] rest IH]; cbn [counter_add]; intros H.
  - constructor; [cbn; lia | constructor].
  - inversion H; subst. cbn in *.
    destruct (k =? k'); constructor; cbn; try lia; auto.
Qed.

Lemma counter_spec (l : list Z) (c0 : list (Z * Z)) :
  let c := fold_left (fun c k => counter_add k c) l c0 in
  zsum (map snd c) = zsum (map snd c0) + Z.of_nat (length l) /\
  (List.NoDup (map fst c0) -> List.NoDup (map fst c)) /\
  (Forall (fun kv => 1 <= snd kv) c0 -> Forall (fun kv => 1 <= snd kv) c).
Proof.
  revert c0. induction l as [| k l IH]; intros c0; cbn [fold_left length].
  - cbv zeta. repeat split; auto. lia.
  - destruct (IH (counter_add k c0)) as (Hs & Hn & Hp). cbv zeta in *.
    rewrite Hs, counter_add_sum. repeat split.
    + lia.
    + intros H. apply Hn, counter_add_NoDup, H.
    + intros H. apply Hp, counter_add_positive, H.
Qed.

Lemma insert_asc_perm {A} (x : Z * A) (l : list (Z * A)) :
  Permutation (insert_asc x l) (x :: l).
Proof.
  induction l as [| y l IH]; cbn; [reflexivity |].
  destruct (fst x <? fst y); [reflexivity |].
  rewrite IH. apply perm_swap.
Qed.

Lemma sort_asc_perm {A} (l : list (Z * A)) : Permutation (sort_asc l) l.
Proof.
  unfold sort_asc.
  assert (H : forall acc, Permutation
                (fold_left (fun acc x => insert_asc x acc) l acc) (l ++ acc)).
  { induction l as [| x l IH]; intros acc; cbn [fold_left app];
      [reflexivity |].
    rewrite IH, insert_asc_perm. symmetry. apply Permutation_middle. }
  rewrite (H []). now rewrite app_nil_r.
Qed.

Lemma insert_asc_sorted {A} (x : Z * A) (l : list (Z * A)) :
  StronglySorted (fun a b => fst a <= fst b) l ->
  StronglySorted (fun a b => fst a <= fst b) (insert_asc x l).
Proof.
  induction 1 as [| y l Hs IH Hy]; cbn.
  - constructor; constructor.
  - destruct (fst x <? fst y) eqn:E.
    + apply Z.ltb_lt in E. constructor; [constructor; assumption |].
      constructor; [lia |].
      eapply List.Forall_impl; [| exact Hy]. cbn. intros; lia.
    + apply Z.ltb_ge in E. constructor; [exact IH |].
      eapply Permutation_Forall;
        [symmetry; apply insert_asc_perm |].
      constructor; assumption.
Qed.

Lemma sort_asc_sorted {A} (l : list (Z * A)) :
  StronglySorted (fun a b => fst a <= fst b) (sort_asc l).
Proof.
  unfold sort_asc.
  assert (H : forall acc,
             StronglySorted (fun a b : Z * A => fst a <= fst b) acc ->
             StronglySorted (fun a b => fst a <= fst b)
               (fold_left (fun acc x => insert_asc x acc) l acc)).
  { induction l as [| x l IH]; intros acc Hacc; cbn [fold_left];
      [exact Hacc | apply IH, insert_asc_sorted, Hacc]. }
  apply H. constructor.
Qed.

Lemma sorted_nodup_strict (l : list Z) :
  StronglySorted Z.le l -> List.NoDup l -> StronglySorted Z.lt l.
Proof.
  induction 1 as [| x l Hs IH Hx]; intros Hnd; [constructor |].
  inversion Hnd as [| ? ? Hnotin Hnd']; subst.
  constructor; [apply IH, Hnd' |].
  rewrite List.Forall_forall in *. intros y Hy.
  specialize (Hx y Hy).
  assert (x <> y) by (intros ->; contradiction). lia.
Qed.

Lemma sorted_map_fst {A} (l : list (Z * A)) :
  StronglySorted (fun a b => fst a <= fst b) l ->
  StronglySorted Z.le (map fst l).
Proof.
  induction 1 as [| x l Hs IH Hx]; cbn [map]; constructor;
    [exact IH | apply Forall_map; exact Hx].
Qed.

(** X16.  The concurrency section accounts for every API call: it is
    missing exactly when there is no call; otherwise the numbers of
    occurrences of its levels add up to the number of calls, the levels are
    listed in strictly increasing order, every listed level occurs at least
    once, and no bar is longer than 50. *)
Theorem the_histogram_accounts_for_every_call (st : LogAnalyzer) :
  match r_concurrency (generate_report st) with
  | None => r_api_total (generate_report st) = 0%nat
  | Some c =>
      zsum (map dl_times (conc_dist c))
      = Z.of_nat (r_api_total (generate_report st)) /\
      StronglySorted Z.lt (map dl_level (conc_dist c)) /\
      Forall (fun d => 1 <= dl_times d /\ 0 <= dl_bar d <= 50) (conc_dist c)
  end.
Proof.
  unfold generate_report. cbn [r_concurrency r_api_total].
  unfold concurrency_summary.
  assert (Hlen : length (active_counts st) = length (api_requests st)).
  { unfold active_counts, dict_values. now rewrite !length_map. }
  destruct (active_counts st) as [| c0 cs] eqn:Hac.
  - cbn in Hlen. congruence.
  - cbn [conc_dist]. rewrite <- Hlen.
    destruct (counter_spec (c0 :: cs) []) as (Hsum & Hnd & Hpos).
    cbv zeta in Hsum, Hnd, Hpos. fold (counter (c0 :: cs)) in Hsum, Hnd, Hpos.
    pose proof (sort_asc_perm (counter (c0 :: cs))) as Hperm.
    repeat split.
    + rewrite map_map.
      rewrite (map_ext (fun x => dl_times (dist_line x)) snd)
        by (intros; reflexivity).
      rewrite (zsum_perm _ _ (Permutation_map snd Hperm)).
      rewrite Hsum. reflexivity.
    + rewrite map_map.
      rewrite (map_ext (fun x => dl_level (dist_line x)) fst)
        by (intros; reflexivity).
      apply sorted_nodup_strict.
      * apply sorted_map_fst, sort_asc_sorted.
      * eapply Permutation_NoDup;
          [symmetry; apply (Permutation_map fst Hperm) |].
        apply Hnd. constructor.
    + apply Forall_map.
      eapply Permutation_Forall; [symmetry; exact Hperm |].
      eapply List.Forall_impl; [| apply Hpos; constructor].
      intros [k n]. cbn. intros Hn. split; [exact Hn |].
      pose proof (Z.div_pos n 10). lia.
Qed.

(** ** The findings *)

Lemma caller_add_nonempty (k : string) (c : list (string * Z)) :
  caller_add k c <> [].
Proof. destruct c as [| [k' n] rest]; cbn; [| destruct (String.eqb k k')]; discriminate. Qed.

Lemma slow_callers_nonempty (l : list SlowRequest) (c0 : list (string * Z)) :
  c0 <> [] ->
  fold_left (fun c r => caller_add (s_caller r) c) l c0 <> [].
Proof.
  revert c0. induction l as [| r l IH]; intros c0 H; cbn; [exact H |].
  apply IH, caller_add_nonempty.
Qed.

Lemma Qltb_false_le (a b : Q) : Qltb a b = false <-> (b <= a)%Q.
Proof.
  unfold Qltb. rewrite negb_false_iff. apply Qle_bool_iff.
Qed.

(** X17.  The report says that nothing was found exactly when the log has
    no timeout record and no slow-call record, the peak is at most 5 and no
    API call took more than 10 seconds; in every other case the findings
    are listed and that line is absent. *)
Theorem nothing_found_exactly_when_all_is_quiet (st : LogAnalyzer) :
  let r := generate_report st in
  (r_findings r = [FNothingFound] <->
   r_timeout_total r = 0%nat /\ r_peak r <= 5 /\ r_slow_total r = 0%nat /\
   match r_api r with
   | Some a => (api_max a <= 10)%Q
   | None => True
   end) /\
  (r_findings r <> [FNothingFound] -> ~ In FNothingFound (r_findings r)).
Proof.
  cbv zeta. unfold generate_report.
  cbn [r_findings r_timeout_total r_peak r_slow_total r_api].
  unfold findings, api_summary.
  destruct (timeouts st) as [| t ts] eqn:Ht;
    destruct (5 <? concurrent_peak st) eqn:Hp;
    [apply Z.ltb_lt in Hp | apply Z.ltb_ge in Hp
    | apply Z.ltb_lt in Hp | apply Z.ltb_ge in Hp];
    (destruct (api_elapsed st) as [| e es] eqn:He;
     [| destruct (Qltb 10 (max_of e es)) eqn:Hq;
        [apply negb_true_iff in Hq;
         assert (Hq' : ~ (max_of e es <= 10)%Q)
           by (intros H; apply Qle_bool_iff in H; congruence)
        | apply Qltb_false_le in Hq]]);
    (destruct (slow_requests st) as [| x l] eqn:Hs;
     [| pose proof (slow_callers_nonempty l
                      (caller_add (s_caller x) [])
                      (caller_add_nonempty _ _)) as Hne;
        cbn [fold_left];
        destruct (fold_left (fun c r => caller_add (s_caller r) c) l
                            (caller_add (s_caller x) []))
          as [| y l'] eqn:Hfold; [congruence |]]);
    cbn [app length api_max]; (split; [split |]);
    try (intros H; discriminate H);
    try (intros (H1 & H2 & H3 & H4); try discriminate; try lia;
         try contradiction; reflexivity);
    try (intros _; repeat split; try lia; assumption);
    try (intros H; exfalso; apply H; reflexivity);
    try (intros _ Hin; cbn in Hin; intuition discriminate).
Qed.

(** ** The sorted lists of the report *)







(** ** Joining END to START *)

Lemma dict_get_set_ne {V} (k k' : string) (v : V) (dct : dict V) :
  k <> k' -> dict_get k (dict_set k' v dct) = dict_get k dct.
Proof.
  intros Hne. apply String.eqb_neq in Hne.
  induction dct as [| [k0 v0] rest IH]; cbn.
  - now rewrite Hne.
  - destruct (String.eqb k' k0) eqn:E0; cbn.
    + apply String.eqb_eq in E0. subst k0. now rewrite Hne.
    + now rewrite IH.
Qed.

(** X19.  A REQ_END line is joined to its call by the id: when the id has
    an entry, the line writes its timestamp and its elapsed time into that
    entry and changes nothing else, neither the other fields of the entry,
    nor any other entry, nor the order of the entries, nor the rest of the
    analyzer. *)
Theorem a_req_end_completes_its_call_only
    (line : string) (ts : datetime) (m : list string) (e : Q)
    (st : LogAnalyzer) (r : ApiRequest) :
  recognize line = Some (ts, REQ_END, m) ->
  float_of (group m 2) = Return e ->
  dict_get (group m 1) (api_requests st) = Some r ->
  exists st',
    analyze_line line st = (Return tt, st') /\
    dict_get (group m 1) (api_requests st') = Some (ended r ts e) /\
    (forall k, k <> group m 1 ->
               dict_get k (api_requests st') = dict_get k (api_requests st)) /\
    dict_keys (api_requests st') = dict_keys (api_requests st) /\
    http_requests st' = http_requests st /\
    slow_requests st' = slow_requests st /\
    timeouts st' = timeouts st /\
    concurrent_peak st' = concurrent_peak st.
Proof.
  intros Hrec Hfloat Hget.
  rewrite analyze_line_recognize, Hrec. cbn [handler].
  unfold analyze_req_end. rewrite Hfloat, Hget.
  eexists. split; [reflexivity |].
  cbn [api_requests set_api http_requests slow_requests timeouts
       concurrent_peak].
  repeat split.
  - apply dict_get_set_eq.
  - intros k Hk. now apply dict_get_set_ne.
  - rewrite dict_keys_set. apply add_key_present.
    rewrite dict_get_keys. unfold dict_mem. now rewrite Hget.
Qed.

Lemma analyze_line_unfinished (line : string) (st st' : LogAnalyzer) :
  has_tag REQ_END [line] = false ->
  has_tag HTTP_END [line] = false ->
  analyze_line line st = (Return tt, st') ->
  all_unfinished st -> all_unfinished st'.
Proof.
  unfold has_tag, all_unfinished. cbn [existsb]. rewrite !orb_false_r.
  intros Hr Hh H (Ha & Hb).
  rewrite analyze_line_recognize in H.
  destruct (recognize line) as [[[ts t] m] |];
    [destruct t; try discriminate |];
    cbn [handler] in H;
    unfold analyze_http_start, analyze_req_start, analyze_slow,
      analyze_timeout, ret in H;
    repeat match type of H with
           | context [match ?x with _ => _ end] => destruct x eqn:?
           end;
    inversion H; subst; clear H;
    cbn [api_requests http_requests set_http set_api set_peak add_slow
         add_timeout];
    split; try assumption.
  - now apply (Forall_dict_set (fun r => h_elapsed r = None)).
  - now apply (Forall_dict_set (fun r => a_elapsed r = None)).
  - now apply (Forall_dict_set (fun r => a_elapsed r = None)).
Qed.

Lemma analyze_file_unfinished (log : list string) (st st' : LogAnalyzer) :
  has_tag REQ_END log = false ->
  has_tag HTTP_END log = false ->
  analyze_file log st = (Return tt, st') ->
  all_unfinished st -> all_unfinished st'.
Proof.
  revert st. induction log as [| line log IH]; intros st Hr Hh H Hinv.
  - inversion H. now subst.
  - cbn [analyze_file] in H. unfold bind in H.
    destruct (analyze_line line st) as [[[] | e] st1] eqn:Hl; [| discriminate].
    unfold has_tag in Hr, Hh. cbn [existsb] in Hr, Hh.
    apply orb_false_iff in Hr. apply orb_false_iff in Hh.
    destruct Hr as [Hr1 Hr2]. destruct Hh as [Hh1 Hh2].
    apply (IH st1 Hr2 Hh2 H).
    apply (analyze_line_unfinished line st st1); try assumption;
      unfold has_tag; cbn [existsb]; now rewrite orb_false_r.
Qed.

Lemma elapsed_of_none {A} (get : A -> option Q) (l : list A) :
  Forall (fun x => get x = None) l -> elapsed_of get l = [].
Proof.
  unfold elapsed_of. induction 1 as [| x l Hx _ IH]; cbn; [reflexivity |].
  now rewrite Hx, IH.
Qed.

(** X20.  A truncated log: when no line of the log is a REQ_END the report
    has no API latency section, and when no line is an HTTP_END it has no
    HTTP latency section, however many calls and requests were started;
    the started calls still make up the total of API calls. *)
Theorem unfinished_calls_have_no_latency (log : list string) (r : Report) :
  has_tag REQ_END log = false ->
  has_tag HTTP_END log = false ->
  main log = Return r ->
  r_api r = None /\ r_http r = None /\
  r_api_total r = length (nodup string_dec (start_ids log)) /\
  r_http_total r = length (nodup string_dec (http_start_ids log)).
Proof.
  intros Hr Hh Hmain.
  destruct (main_returns _ _ Hmain) as (st & Hscan & ->).
  destruct (analyze_file_unfinished _ _ _ Hr Hh Hscan) as (Ha & Hb).
  { split; constructor. }
  unfold generate_report.
  cbn [r_api r_http r_api_total r_http_total].
  unfold api_summary, http_summary, api_elapsed, dict_values.
  rewrite !elapsed_of_none by (apply Forall_map; assumption).
  repeat split.
  - rewrite dict_length_keys, (analyze_file_api_keys _ _ _ Hscan).
    apply distinct_length.
  - rewrite dict_length_keys, (analyze_file_http_keys _ _ _ Hscan).
    apply distinct_length.
Qed.

End AnalyzerMore.

(** * From the tracker's records to the analyzer's entries *)

Section RoundTrip.

Import Analyzer.

(** ** Decimal numbers *)






(** ** Strings and patterns *)

Lemma append_cons (x : ascii) (a b : string) :
  (String x a ++ b = String x (a ++ b))%string.
Proof. reflexivity. Qed.














End RoundTrip.

Section AnalyzerMoreWitnesses.

Import Analyzer Fixtures.

Lemma unrelated_line_witness :
  starts_with_digit noise = false /\
  recognized noise = false /\
  main ([start1] ++ noise :: [start2]) = main ([start1] ++ [start2]).
Proof.
  split; [reflexivity |].
  destruct (unrelated_lines_are_skipped [start1] [start2] noise
              (or_introl eq_refl)) as (H1 & _ & H3).
  split; assumption.
Defined.

Lemma malformed_elapsed_witness :
  recognize bad_end = Some (at_second 4, REQ_END, ["9"; "1.2.3"]) /\
  main ([start1] ++ bad_end :: [start2])
  = Raise (Exn ValueError "could not convert string to float: '1.2.3'").
Proof.
  assert (Hrec : recognize bad_end
                 = Some (at_second 4, REQ_END, ["9"; "1.2.3"]))
    by (vm_compute; reflexivity).
  split; [exact Hrec |].
  assert (Hpre : analyze_file [start1] new_analyzer
                 = (Return tt, snd (analyze_file [start1] new_analyzer)))
    by (vm_compute; reflexivity).
  exact (proj2 (a_malformed_elapsed_ends_the_scan
                  [start1] [start2] bad_end (at_second 4) REQ_END
                  ["9"; "1.2.3"] 2%nat
                  (Exn ValueError "could not convert string to float: '1.2.3'")
                  _ Hpre Hrec eq_refl eq_refl)).
Defined.

Lemma peak_witness :
  exists r,
    main [start1_again; start1] = Return r /\
    r_peak r = 4 /\
    forall c, r_concurrency r = Some c -> conc_max c <= r_peak r.
Proof.
  assert (Hmain : exists r, main [start1_again; start1] = Return r)
    by (eexists; vm_compute; reflexivity).
  destruct Hmain as (r & Hmain). exists r. split; [exact Hmain |].
  destruct (peak_covers_every_admission _ r Hmain) as (Hp & _ & Hc).
  split; [rewrite Hp; vm_compute; reflexivity | exact Hc].
Defined.

(** The overwritten admission still counts for the peak, not for the
    maximum of the concurrency section. *)
Example peak_and_maximum_can_differ :
  exists r c,
    main [start1_again; start1] = Return r /\
    r_concurrency r = Some c /\ r_peak r = 4 /\ conc_max c = 0.
Proof. do 2 eexists. vm_compute. repeat split. Qed.

Lemma nothing_found_witness :
  r_findings (generate_report new_analyzer) = [FNothingFound].
Proof.
  apply (proj1 (nothing_found_exactly_when_all_is_quiet new_analyzer)).
  cbn. repeat split. lia.
Defined.

Lemma req_end_witness :
  exists st',
    analyze_line end1 (snd (analyze_file [start1] new_analyzer))
    = (Return tt, st') /\
    dict_get "1" (api_requests st')
    = Some (ended (entry_of_start (at_second 0) (start_groups "1" "0"))
                  (at_second 3) (3500 # 1000)).
Proof.
  destruct (a_req_end_completes_its_call_only
              end1 (at_second 3) ["1"; "3.500"] (3500 # 1000)
              (snd (analyze_file [start1] new_analyzer))
              (entry_of_start (at_second 0) (start_groups "1" "0"))
              ltac:(vm_compute; reflexivity)
              ltac:(vm_compute; reflexivity)
              ltac:(vm_compute; reflexivity))
    as (st' & Hrun & Hget & _).
  exists st'. split; [exact Hrun | exact Hget].
Defined.

Lemma truncated_log_witness :
  has_tag REQ_END three_starts = false /\
  has_tag HTTP_END three_starts = false /\
  exists r, main three_starts = Return r /\ r_api r = None /\ r_http r = None.
Proof.
  assert (H1 : has_tag REQ_END three_starts = false)
    by (vm_compute; reflexivity).
  assert (H2 : has_tag HTTP_END three_starts = false)
    by (vm_compute; reflexivity).
  split; [exact H1 |]. split; [exact H2 |].
  assert (Hmain : exists r, main three_starts = Return r)
    by (eexists; vm_compute; reflexivity).
  destruct Hmain as (r & Hmain). exists r. split; [exact Hmain |].
  destruct (unfinished_calls_have_no_latency _ r H1 H2 Hmain)
    as (Ha & Hh & _).
  split; assumption.
Defined.


(** The condition on the fields is needed: a thread name with a space, as
    worker threads have, makes the line one the analyzer skips. *)
Example a_thread_name_with_a_space_hides_the_call :
  recognize start_from_named_thread = None /\
  main [start_from_named_thread]
  = main [].
Proof. split; vm_compute; reflexivity. Qed.

End AnalyzerMoreWitnesses.

(** * The registry over a sequence of calls *)

Section RegistryOverCalls.

Import Corelib.

Variable env : Env.

Lemma auth_requests_registry (ctx : context) (method : string)
    (args : list string) (kw : kwargs) (s : state) :
  ids_below_counter s ->
  let s' := snd (auth_requests env ctx method args kw s) in
  _request_counter s' = _request_counter s + 1 /\
  ids_below_counter s' /\
  match g_user_token ctx with
  | Some _ => _active_requests s' = _active_requests s
  | None => size (_active_requests s') = S (size (_active_requests s))
  end.
Proof.
  intros Hinv. cbv zeta.
  assert (Hfresh : _active_requests s !! (_request_counter s + 1) = None).
  { destruct (_active_requests s !! (_request_counter s + 1)) eqn:E;
      [| reflexivity].
    specialize (Hinv (_request_counter s + 1)). rewrite E in Hinv.
    assert (_request_counter s + 1 <= _request_counter s) by eauto. lia. }
  unfold auth_requests, bind.
  destruct (admit_call_registers env ctx method args kw s)
    as (l & r & Hadm & Hid).
  rewrite Hadm.
  destruct (g_user_token ctx) as [tok |] eqn:Htok.
  - rewrite (complete_call_with_token env ctx method args kw l _ tok Htok).
    cbn [snd _request_counter _active_requests]. rewrite Hid.
    rewrite delete_insert_id by exact Hfresh.
    repeat split. intros k Hk. cbn [_request_counter _active_requests] in *.
    specialize (Hinv k Hk). lia.
  - rewrite (complete_call_without_token env _ _ _ _ _ _ Htok).
    cbn [snd _request_counter _active_requests]. rewrite Hid.
    repeat split.
    + intros k Hk. cbn [_request_counter _active_requests] in *.
      destruct (decide (k = _request_counter s + 1)) as [-> | Hne]; [lia |].
      rewrite lookup_insert_ne in Hk by congruence.
      specialize (Hinv k Hk). lia.
    + now apply map_size_insert_None.
Qed.

(** X22.  Over any sequence of calls, each run to its end, the registry
    grows by exactly the number of calls that came without a token: a call
    with a token leaves the registry as it found it, whatever the outcome
    of the network call, and a call without one leaves its record behind.
    Started on the freshly loaded module, the size of the registry is the
    number of tokenless calls so far. *)
Theorem the_registry_counts_the_tokenless_calls
    (calls : list (context * string * list string * kwargs)) (s : state) :
  ids_below_counter s ->
  size (_active_requests (run_calls env calls s))
  = (size (_active_requests s) + tokenless calls)%nat /\
  (size (_active_requests (run_calls env calls initial)) = tokenless calls).
Proof.
  assert (H : forall s0, ids_below_counter s0 ->
              size (_active_requests (run_calls env calls s0))
              = (size (_active_requests s0) + tokenless calls)%nat).
  { induction calls as [| [[[ctx method] args] kw] rest IH]; intros s0 Hinv.
    - cbn. unfold tokenless. cbn. lia.
    - cbn [run_calls].
      destruct (auth_requests_registry ctx method args kw s0 Hinv)
        as (_ & Hinv' & Hreg). cbv zeta in Hinv', Hreg.
      rewrite (IH _ Hinv'). unfold tokenless. cbn [List.filter fst].
      destruct (g_user_token ctx); cbn [length].
      + now rewrite Hreg.
      + rewrite Hreg. lia. }
  intros Hinv. split; [apply H, Hinv |].
  rewrite H.
  - cbn [initial _active_requests]. rewrite map_size_empty. lia.
  - intros k Hk. cbn [initial _active_requests] in Hk.
    rewrite lookup_empty in Hk. destruct Hk as [? Hk]. discriminate Hk.
Qed.

End RegistryOverCalls.

Section RegistryOverCallsWitnesses.

Import Corelib Fixtures.

Lemma registry_witness :
  ids_below_counter initial /\
  size (_active_requests
          (run_calls backend_ok
             [ (ctx_without_token, "GET", team_url, no_kwargs);
               (ctx_with_token, "GET", team_url, no_kwargs);
               (ctx_without_token, "POST", team_url, no_kwargs) ]
             initial)) = 2%nat.
Proof.
  assert (Hinv : ids_below_counter initial).
  { intros k [x Hk]. cbn in Hk. rewrite lookup_empty in Hk. discriminate Hk. }
  split; [exact Hinv |].
  exact (proj2 (the_registry_counts_the_tokenless_calls backend_ok
                  [ (ctx_without_token, "GET", team_url, no_kwargs);
                    (ctx_with_token, "GET", team_url, no_kwargs);
                    (ctx_without_token, "POST", team_url, no_kwargs) ]
                  initial Hinv)).
Defined.

End RegistryOverCallsWitnesses.

(** * The elapsed times the analyzer reads *)

Section ElapsedTexts.

Import Analyzer.

Local Open Scope Z_scope.

Lemma digit_is_not_a_dot (c : ascii) :
  is_digit c = true -> Ascii.eqb c "."%char = false.
Proof.
  destruct c as [[] [] [] [] [] [] [] []]; cbn; intros H;
    try discriminate H; reflexivity.
Qed.

Lemma split_dot_digits (ip : string) :
  all_chars is_digit ip = true -> split_dot ip = (ip, None).
Proof.
  induction ip as [| c ip IH]; cbn [all_chars split_dot]; [reflexivity |].
  intros H. apply andb_true_iff in H. destruct H as [Hc Hs].
  now rewrite (digit_is_not_a_dot c Hc), (IH Hs).
Qed.

Lemma split_dot_app (ip rest : string) :
  all_chars is_digit ip = true ->
  split_dot (ip ++ String "."%char rest)%string = (ip, Some rest).
Proof.
  induction ip as [| c ip IH]; cbn [all_chars]; intros H.
  - reflexivity.
  - apply andb_true_iff in H. destruct H as [Hc Hs].
    rewrite append_cons. cbn [split_dot].
    now rewrite (digit_is_not_a_dot c Hc), (IH Hs).
Qed.

Lemma digits_value_app (a b : string) (acc : Z) :
  digits_value (a ++ b)%string acc
  = match digits_value a acc with
    | Some n => digits_value b n
    | None => None
    end.
Proof.
  revert acc. induction a as [| c a IH]; intros acc; [reflexivity |].
  rewrite append_cons. cbn [digits_value].
  destruct (is_digit c); [apply IH | reflexivity].
Qed.

Lemma digits_value_digits (s : string) :
  all_chars is_digit s = true ->
  forall acc,
    digits_value s acc
    = Some (acc * 10 ^ Z.of_nat (String.length s) + int_of s).
Proof.
  induction s as [| c s IH]; cbn [all_chars]; intros H acc.
  - cbn. f_equal. lia.
  - apply andb_true_iff in H. destruct H as [Hc Hs].
    unfold int_of. cbn [digits_value String.length]. rewrite Hc.
    rewrite !(IH Hs). f_equal.
    rewrite Nat2Z.inj_succ, Z.pow_succ_r by lia. ring.
Qed.

Lemma digits_value_dot (b rest : string) (acc : Z) :
  all_chars is_digit b = true ->
  digits_value (b ++ String "."%char rest)%string acc = None.
Proof.
  intros Hb. rewrite digits_value_app, (digits_value_digits b Hb).
  reflexivity.
Qed.

(** What [float] makes of an elapsed text, a text of digits and dots.
    A run of digits reads as its integer; digits, one dot and digits (one
    side may be empty) read as the decimal number written; a lone dot and
    any text with a second dot are rejected with the ValueError that names
    the text. *)
Theorem float_reads_the_decimal_written (ip fp : string) :
  all_chars is_digit ip = true -> all_chars is_digit fp = true ->
  (ip <> EmptyString -> float_of ip = Return (inject_Z (int_of ip))) /\
  ((ip ++ fp)%string <> EmptyString ->
   exists q,
     float_of (ip ++ "." ++ fp)%string = Return q /\
     (q == inject_Z (int_of ip)
           + inject_Z (int_of fp)
             / inject_Z (10 ^ Z.of_nat (String.length fp)))%Q) /\
  float_of "." = Raise (Exn ValueError
                            "could not convert string to float: '.'") /\
  (forall rest,
     float_of (ip ++ "." ++ fp ++ "." ++ rest)%string
     = Raise (Exn ValueError
                  ("could not convert string to float: '"
                   ++ (ip ++ "." ++ fp ++ "." ++ rest) ++ "'")%string)).
Proof.
  intros Hip Hfp. split; [| split; [| split]].
  - intros Hne. unfold float_of. rewrite (split_dot_digits ip Hip).
    rewrite (digits_value_digits ip Hip). cbn [digits_value].
    destruct ip as [| c ip]; [congruence |].
    cbn [String.length Nat.add Nat.eqb].
    rewrite digits_value_app, (digits_value_digits _ Hip).
    cbn [digits_value]. cbn [String.length Z.of_nat]. reflexivity.
  - intros Hne. unfold float_of.
    change (ip ++ "." ++ fp)%string with (ip ++ String "."%char fp)%string.
    rewrite (split_dot_app ip fp Hip).
    rewrite (digits_value_digits ip Hip), (digits_value_digits fp Hfp).
    destruct ((String.length ip + String.length fp)%nat =? 0)%nat eqn:E.
    + apply Nat.eqb_eq in E. exfalso. apply Hne.
      destruct ip; [| cbn in E; lia]. destruct fp; [| cbn in E; lia].
      reflexivity.
    + rewrite digits_value_app, (digits_value_digits ip Hip),
        (digits_value_digits fp Hfp).
      eexists. split; [reflexivity |].
      assert (Hpow : 0 < 10 ^ Z.of_nat (String.length fp))
        by (apply Z.pow_pos_nonneg; lia).
      rewrite Qmake_Qdiv, Z2Pos.id by exact Hpow.
      rewrite inject_Z_plus, inject_Z_mult.
      assert (Hq : ~ (inject_Z (10 ^ Z.of_nat (String.length fp)) == 0)%Q).
      { intros Hq. unfold Qeq, inject_Z in Hq. cbn in Hq. lia. }
      rewrite Z.mul_0_l, Z.add_0_l.
      set (p := inject_Z (10 ^ Z.of_nat (String.length fp))) in *.
      set (a := inject_Z (int_of ip)). set (b := inject_Z (int_of fp)).
      field. exact Hq.
  - reflexivity.
  - intros rest. unfold float_of.
    change (ip ++ "." ++ fp ++ "." ++ rest)%string
      with (ip ++ String "."%char (fp ++ String "."%char rest))%string.
    rewrite (split_dot_app ip _ Hip).
    rewrite (digits_value_digits ip Hip), (digits_value_dot fp rest _ Hfp).
    reflexivity.
Qed.

End ElapsedTexts.

Section ElapsedTextsWitnesses.

Import Analyzer.

Lemma float_witness :
  all_chars is_digit "12" = true /\ all_chars is_digit "5" = true /\
  float_of "12" = Return (12 # 1) /\
  float_of "12.5.7"
  = Raise (Exn ValueError "could not convert string to float: '12.5.7'").
Proof.
  split; [reflexivity |]. split; [reflexivity |]. split.
  - apply (proj1 (float_reads_the_decimal_written "12" "5" eq_refl eq_refl)).
    discriminate.
  - exact (proj2 (proj2 (proj2 (float_reads_the_decimal_written
                                  "12" "5" eq_refl eq_refl))) "7").
Defined.

End ElapsedTextsWitnesses.
